(** * action-verified-commit: a shallow embedding of [src/index.js]

    The action replicates a local git commit on GitHub through the git
    object API.  This file embeds the program of [src/index.js] and
    proves, or refutes and amends, the properties its specification
    states about it.

    Conventions of the embedding.
    - A JavaScript string is a [string]: a sequence of code units below
      256 (the Latin-1 range).
    - A JavaScript value that may be [undefined] is an [option].
    - [async] code runs in the monad [M]: a state (the global [CONTEXT]
      object and the log of the external calls made so far) and an
      outcome that is a value or a thrown JavaScript value.
    - The collaborators of the program (simple-git, the file system,
      @actions/core, Octokit) are the fields of an environment [Env];
      the replies of Octokit may depend on every call made before.
    - Time belongs to the environment: a promise that the program keeps
      carries the instant at which it settles, and [clock] gives the
      instant the run has reached after a history of calls.  So does
      what node makes of a rejection that no handler awaits. *)

From Stdlib Require Import Ascii String ZArith Lia.
From stdpp Require Import strings list gmap.


(** ** JavaScript strings and arrays *)

Module Js.

Definition TAB : ascii := ascii_of_nat 9.
Definition LF : ascii := ascii_of_nat 10.

(** The code units below 256 that [\s] matches and [trimEnd] removes:
    TAB, LF, VT, FF, CR, space and the no-break space. *)
Definition isWhiteSpace (c : ascii) : bool :=
  let n := nat_of_ascii c in
  ((9 <=? n)%nat && (n <=? 13)%nat) || (n =? 32)%nat || (n =? 160)%nat.

(** [s.trimEnd()] *)
Fixpoint trimEnd (s : string) : string :=
  match s with
  | EmptyString => EmptyString
  | String c s' =>
      match trimEnd s' with
      | EmptyString => if isWhiteSpace c then EmptyString else String c EmptyString
      | r => String c r
      end
  end.

(** [s.replace(/\.git$/, '')]: the only possible match is the one that
    ends the string. *)
Fixpoint replace_dot_git_at_end (s : string) : string :=
  match s with
  | EmptyString => EmptyString
  | String c s' =>
      if String.eqb s ".git" then EmptyString
      else String c (replace_dot_git_at_end s')
  end.

(** [s.split(sep)] for a separator that is one code unit, or a regular
    expression matching exactly one code unit of a class ([/\s/]): the
    pieces between the separators.  The result is never empty. *)
Fixpoint split (sep : ascii -> bool) (s : string) : list string :=
  match s with
  | EmptyString => [EmptyString]
  | String c s' =>
      if sep c then EmptyString :: split sep s'
      else match split sep s' with
           | piece :: pieces => String c piece :: pieces
           | [] => [String c EmptyString]
           end
  end.

Definition char (c : ascii) : ascii -> bool := Ascii.eqb c.

(** [a.slice(start, end)] for [0 <= start <= end]. *)
Definition slice {A} (start end_ : nat) (a : list A) : list A :=
  take (end_ - start) (drop start a).

(** [s.replace(pattern, replacement)] for a string pattern: only the
    first occurrence is replaced. *)
Fixpoint replace (pattern replacement s : string) : string :=
  if String.prefix pattern s
  then replacement +:+ String.substring (String.length pattern)
                         (String.length s - String.length pattern) s
  else match s with
       | EmptyString => EmptyString
       | String c s' => String c (replace pattern replacement s')
       end.

(** The code unit of the double quote. *)
Definition DQUOTE : ascii := ascii_of_nat 34.

(** [a.findIndex(p)]: the first index whose element satisfies [p],
    [-1] when there is none. *)
Fixpoint findIndex {A} (p : A -> bool) (a : list A) : Z :=
  match a with
  | [] => (-1)%Z
  | x :: a' =>
      if p x then 0%Z
      else let i := findIndex p a' in
           if (i =? -1)%Z then (-1)%Z else (i + 1)%Z
  end.

(** [x === y] on values that are a string or [undefined]. *)
Definition strictEq (x y : option string) : bool :=
  match x, y with
  | Some a, Some b => String.eqb a b
  | None, None => true
  | _, _ => false
  end.

(** What a template literal prints for a value that may be
    [undefined]. *)
Definition toString (x : option string) : string :=
  match x with
  | Some s => s
  | None => "undefined"
  end.

End Js.

(** ** Outcomes of asynchronous calls *)

(** A thrown JavaScript object: whether it is an instance of [Error],
    and its [message] property. *)
Record Thrown := { instanceofError : bool; message : option string }.

Definition Error_ (msg : string) : Thrown :=
  {| instanceofError := true; message := Some msg |}.

Inductive Outcome (A : Type) : Type :=
| Fulfilled (value : A)
| Rejected (reason : Thrown).
Arguments Fulfilled {A} value.
Arguments Rejected {A} reason.

(** A promise that is kept as a value: its outcome and the instant at
    which it settles. *)
Record Promise (A : Type) := { settledAt : nat; outcome : Outcome A }.
Arguments settledAt {A} p.
Arguments outcome {A} p.

Definition isRejected {A} (p : Promise A) : bool :=
  match outcome p with Rejected _ => true | Fulfilled _ => false end.

(** The rejection that settles first among the promises of an array,
    the earlier element winning a tie. *)
Fixpoint earliestRejection {A} (ps : list (Promise A)) : option (nat * Thrown) :=
  match ps with
  | [] => None
  | p :: ps' =>
      match outcome p, earliestRejection ps' with
      | Rejected e, Some (t', e') =>
          if (settledAt p <=? t')%nat then Some (settledAt p, e) else Some (t', e')
      | Rejected e, None => Some (settledAt p, e)
      | Fulfilled _, r => r
      end
  end.

Fixpoint fulfilledValues {A} (ps : list (Promise A)) : list A :=
  match ps with
  | [] => []
  | p :: ps' =>
      match outcome p with
      | Fulfilled v => v :: fulfilledValues ps'
      | Rejected _ => fulfilledValues ps'
      end
  end.

(** The first promise of the array, in the order of the array, that
    was rejected before the instant [now]. *)
Fixpoint rejectedBefore {A} (now : nat) (ps : list (Promise A)) : option Thrown :=
  match ps with
  | [] => None
  | p :: ps' =>
      match outcome p with
      | Rejected e =>
          if (settledAt p <? now)%nat then Some e else rejectedBefore now ps'
      | Fulfilled _ => rejectedBefore now ps'
      end
  end.

(** [Promise.all(ps)], called at the instant [now].  [Promise.all]
    subscribes to the promises in the order of the array: the reactions of
    the promises that are settled by then run in that order, before any
    other promise settles, so the first of them that is rejected rejects
    the result.  When none was rejected yet the result is rejected with the
    first rejection to happen, and it is fulfilled with all the values once
    every promise is fulfilled. *)
Definition Promise_all {A} (now : nat) (ps : list (Promise A)) : Promise (list A) :=
  match rejectedBefore now ps with
  | Some e => {| settledAt := now; outcome := Rejected e |}
  | None =>
      match earliestRejection ps with
      | Some (t, e) => {| settledAt := t; outcome := Rejected e |}
      | None =>
          {| settledAt := foldr (fun p t => Nat.max (settledAt p) t) now ps;
             outcome := Fulfilled (fulfilledValues ps) |}
      end
  end.

(** What node does with a promise that is rejected while no handler is
    attached to it (its option [--unhandled-rejections]): it ends the
    process with the rejection as an uncaught exception ([throw], the
    default from node 15 on), or it prints a warning and goes on ([warn],
    the default before). *)
Inductive UnhandledRejections := EndProcess | Warn.

(** ** The data of the program *)

(** An entry of a tree, as [getTree] builds it and as the tree-creation
    call receives it. *)
Record treeEntry := {
  mode : option string;
  type : option string;
  sha : option string;
  path : option string
}.

Module Inputs.
Record t := {
  token : string;
  path : string;
  branch : string;
  commitMessage : string
}.
End Inputs.

Module Repo.
Record t := {
  repo : option string;
  owner : option string;
  branch : string;
  sha : string
}.
End Repo.

Module Task.
Record t := {
  lastCommitSha : option string;
  branch : option string;
  localCommit : option string
}.
Definition empty : t :=
  {| lastCommitSha := None; branch := None; localCommit := None |}.
End Task.

(** The global [CONTEXT] object.  Its handles [CONTEXT.git] and
    [CONTEXT.octokit] carry no data: [run] sets them before any function
    that uses them is called, and a call on them is a call on the
    environment. *)
Record Context := {
  TASK : Task.t;
  INPUTS : option Inputs.t;
  PATH : option string;
  REPO : option Repo.t
}.

Definition CONTEXT0 : Context :=
  {| TASK := Task.empty; INPUTS := None; PATH := None; REPO := None |}.

Record StatusResult := { isClean : bool }.
Record CommitResult := { commit : string }.

(** ** The log of external calls *)

(** Every call the program makes on a collaborator, in the order of the
    calls; a call on the hosting API is logged with its reply.  The two
    assignments to [CONTEXT.TASK.lastCommitSha] are logged too. *)
Inductive Event :=
| EvRevparse (args : list string)
| EvRemote (args : list string)
| EvStatus
| EvRaw (args : list (option string))
| EvAddCommit (files message_ : string)
| EvReadFile (file : string)
| EvCreateRef (owner repo : option string) (sha_ ref : string)
    (reply : Outcome unit)
| EvCreateBlob (owner repo : option string) (content encoding : string)
    (reply : Promise unit)
| EvCreateTree (owner repo : option string) (tree : list treeEntry)
    (reply : Outcome string)
| EvCreateCommit (owner repo : option string) (message_ : string)
    (parents : list (option string)) (tree : string) (reply : Outcome string)
| EvUpdateRef (owner repo : option string) (ref : string)
    (sha_ : option string) (force : bool) (reply : Outcome unit)
| EvAssignLastCommitSha (value : string).

(** The calls on the hosting API. *)
Definition isRemoteCall (ev : Event) : bool :=
  match ev with
  | EvCreateRef _ _ _ _ _ | EvCreateBlob _ _ _ _ _ | EvCreateTree _ _ _ _
  | EvCreateCommit _ _ _ _ _ _ | EvUpdateRef _ _ _ _ _ _ => true
  | _ => false
  end.

(** ** The environment *)

Record Env := {
  (* @actions/core *)
  core_getInput : string -> bool -> Outcome string;
  (* path, Buffer *)
  path_resolve : string -> string;
  path_join : string -> string -> string;
  toString_base64 : string -> string;
  (* simple-git *)
  simpleGit : string -> Outcome unit;
  git_revparse : list string -> Outcome string;
  git_remote : list string -> Outcome string;
  git_status : Outcome StatusResult;
  git_raw : list (option string) -> Promise string;
  git_add_commit : string -> string -> Outcome CommitResult;
  (* fs *)
  fs_readFile : string -> Outcome string;
  (* @actions/github; the reply may depend on the calls made so far *)
  github_getOctokit : string -> Outcome unit;
  octokit_createRef :
    list Event -> option string -> option string -> string -> string -> Outcome unit;
  octokit_createBlob :
    list Event -> option string -> option string -> string -> string -> Promise unit;
  octokit_createTree :
    list Event -> option string -> option string -> list treeEntry -> Outcome string;
  octokit_createCommit :
    list Event -> option string -> option string -> string ->
    list (option string) -> string -> Outcome string;
  octokit_updateRef :
    list Event -> option string -> option string -> string -> option string ->
    bool -> Outcome unit;
  (* the instant at which the run has made the calls of a history and
     has got the replies it awaited *)
  clock : list Event -> nat;
  (* node *)
  unhandledRejections : UnhandledRejections
}.

(** ** The monad of the program *)

Record State := { CONTEXT : Context; log : list Event }.

Definition M (A : Type) : Type := State -> Outcome A * State.

Definition ret {A} (a : A) : M A := fun st => (Fulfilled a, st).

Definition throw {A} (e : Thrown) : M A := fun st => (Rejected e, st).

Definition bind {A B} (m : M A) (k : A -> M B) : M B :=
  fun st =>
    match m st with
    | (Fulfilled a, st') => k a st'
    | (Rejected e, st') => (Rejected e, st')
    end.

(** [try { m } catch (error) { h error }] *)
Definition tryCatch {A} (m : M A) (h : Thrown -> M A) : M A :=
  fun st =>
    match m st with
    | (Fulfilled a, st') => (Fulfilled a, st')
    | (Rejected e, st') => h e st'
    end.

Notation "x <- m ;; k" := (bind m (fun x => k))
  (at level 100, m at next level, right associativity).
Notation "m ;;; k" := (bind m (fun _ => k))
  (at level 100, right associativity).

(** [await p] *)
Definition await {A} (p : Promise A) : M A := fun st => (outcome p, st).

(** A synchronous call that returns or throws, and is not logged. *)
Definition sync {A} (r : Outcome A) : M A := fun st => (r, st).

(** An awaited call: log it, then continue with its outcome. *)
Definition call {A} (ev : Event) (reply : Outcome A) : M A :=
  fun st => (reply, {| CONTEXT := CONTEXT st; log := log st ++ [ev] |}).

(** A call whose promise is kept: log it and return the promise. *)
Definition start {A} (ev : Event) (p : Promise A) : M (Promise A) :=
  fun st => (Fulfilled p, {| CONTEXT := CONTEXT st; log := log st ++ [ev] |}).

Definition getLog : M (list Event) := fun st => (Fulfilled (log st), st).

Definition getContext : M Context := fun st => (Fulfilled (CONTEXT st), st).

Definition setContext (c : Context) : M unit :=
  fun st => (Fulfilled tt, {| CONTEXT := c; log := log st |}).

(** Reading a property of a part of [CONTEXT] that is still
    [undefined] throws a [TypeError]. *)
Definition TypeError_undefined : Thrown :=
  Error_ "Cannot read properties of undefined".

Definition defined {A} (x : option A) : M A :=
  match x with
  | Some a => ret a
  | None => throw TypeError_undefined
  end.

(** ** The program *)

Section Program.

Variable env : Env.

(** *** Calls on the hosting API *)

Definition createRef (owner repo : option string) (sha_ ref : string) : M unit :=
  history <- getLog;;
  let reply := octokit_createRef env history owner repo sha_ ref in
  call (EvCreateRef owner repo sha_ ref reply) reply.

Definition createBlob (owner repo : option string) (content encoding : string)
  : M (Promise unit) :=
  history <- getLog;;
  let reply := octokit_createBlob env history owner repo content encoding in
  start (EvCreateBlob owner repo content encoding reply) reply.

Definition createTree (owner repo : option string) (tree : list treeEntry)
  : M string :=
  history <- getLog;;
  let reply := octokit_createTree env history owner repo tree in
  call (EvCreateTree owner repo tree reply) reply.

Definition createCommit (owner repo : option string) (message_ : string)
  (parents : list (option string)) (tree : string) : M string :=
  history <- getLog;;
  let reply := octokit_createCommit env history owner repo message_ parents tree in
  call (EvCreateCommit owner repo message_ parents tree reply) reply.

Definition updateRef (owner repo : option string) (ref : string)
  (sha_ : option string) (force : bool) : M unit :=
  history <- getLog;;
  let reply := octokit_updateRef env history owner repo ref sha_ force in
  call (EvUpdateRef owner repo ref sha_ force reply) reply.

(** [CONTEXT.TASK.lastCommitSha = value] *)
Definition assignLastCommitSha (value : string) : M unit :=
  fun st =>
    let c := CONTEXT st in
    (Fulfilled tt,
     {| CONTEXT := {| TASK := {| Task.lastCommitSha := Some value;
                                 Task.branch := Task.branch (TASK c);
                                 Task.localCommit := Task.localCommit (TASK c) |};
                      INPUTS := INPUTS c; PATH := PATH c; REPO := REPO c |};
        log := log st ++ [EvAssignLastCommitSha value] |}).

(** *** [identifyRepository] *)

Definition identifyRepository : M Repo.t :=
  branch <- call (EvRevparse ["--abbrev-ref"; "HEAD"])
                 (git_revparse env ["--abbrev-ref"; "HEAD"]);;
  sha_ <- call (EvRevparse ["HEAD"]) (git_revparse env ["HEAD"]);;
  originRemote <- call (EvRemote ["get-url"; "origin"])
                       (git_remote env ["get-url"; "origin"]);;
  let owner_repo :=
    Js.slice 3 5
      (Js.split (Js.char "/")
         (Js.replace_dot_git_at_end (Js.trimEnd originRemote))) in
  let owner := owner_repo !! 0%nat in
  let repo := owner_repo !! 1%nat in
  ret {| Repo.repo := repo; Repo.owner := owner;
         Repo.branch := branch; Repo.sha := sha_ |}.

(** *** [createRemoteBranch] *)

Definition createRemoteBranch (branch : option string) : M unit :=
  c <- getContext;;
  R <- defined (REPO c);;
  tryCatch
    (createRef (Repo.owner R) (Repo.repo R) (Repo.sha R)
       ("refs/heads/" +:+ Js.toString branch))
    (fun error =>
       (* If the branch exists ignores the error *)
       if instanceofError error
          && negb (Js.strictEq (message error) (Some "Reference already exists"))
       then throw error
       else ret tt).

(** *** The local functions of [createGithubVerifiedCommit] *)

(** One line of [git ls-tree]: [mode SP type SP sha TAB path]. *)
Definition parseTreeObject (treeObject : string) : treeEntry :=
  let fields := Js.split Js.isWhiteSpace treeObject in
  let file := Js.split (Js.char Js.TAB) treeObject !! 1%nat in
  {| mode := fields !! 0%nat;
     type := fields !! 1%nat;
     sha := fields !! 2%nat;
     path := file |}.

(** The body of [getTree] after the listing has arrived. *)
Definition parseTree (listing : string) : list treeEntry :=
  let output := Js.trimEnd listing in
  map parseTreeObject (Js.split (Js.char Js.LF) output).

(** [getTree(commitSha)], up to its only [await]: the call is made
    and the promise of the parsed tree is returned. *)
Definition getTree (commitSha : option string) : M (Promise (list treeEntry)) :=
  let args := [Some "ls-tree"; Some "-r"; Some "--full-tree"; commitSha] in
  let listing := git_raw env args in
  start (EvRaw args)
    {| settledAt := settledAt listing;
       outcome := match outcome listing with
                  | Fulfilled text => Fulfilled (parseTree text)
                  | Rejected e => Rejected e
                  end |}.

(** The [TypeError] (code [ERR_INVALID_ARG_TYPE]) that [path.join]
    throws on [undefined]: [The "path" argument must be of type string.
    Received undefined]. *)
Definition TypeError_path : Thrown :=
  Error_ ("The " +:+ String Js.DQUOTE "path" +:+ String Js.DQUOTE
            " argument must be of type string. Received undefined").

(** [getBlobBase64Content(file)]: [path.join] throws on an argument
    that is not a string. *)
Definition getBlobBase64Content (file : option string) : M string :=
  c <- getContext;;
  match PATH c, file with
  | Some base, Some file' =>
      let fileRelativePath := path_join env base file' in
      fileContent <- call (EvReadFile fileRelativePath)
                          (fs_readFile env fileRelativePath);;
      ret (toString_base64 env fileContent)
  | _, _ => throw TypeError_path
  end.

(** The test that makes the loop of [createGithubBlobs] skip an
    entry: its blob is in the previous tree. *)
Definition inPreviousTree (previousTree : list treeEntry) (treeEntry_ : treeEntry)
  : bool :=
  negb (Js.findIndex (fun entry => Js.strictEq (sha entry) (sha treeEntry_))
          previousTree =? -1)%Z.

(** The instant the run has reached. *)
Definition getNow : M nat := fun st => (Fulfilled (clock env (log st)), st).

(** [await m] while the promises [ps] are kept without a handler.  Where
    node ends the process on an unhandled rejection, the process ends with
    the first of [ps] to be rejected before [m] completes: the call of [m]
    was made, and nothing of the program runs after it.  [Rejected] then
    carries the uncaught exception; no [try] block of the program encloses
    such an [await]. *)
Definition awaitBeside {A} (ps : list (Promise unit)) (m : M A) : M A :=
  fun st =>
    let r := m st in
    let now := clock env (log (snd r)) in
    match unhandledRejections env,
          earliestRejection (List.filter (fun p => (settledAt p <? now)%nat) ps) with
    | EndProcess, Some (_, e) => (Rejected e, snd r)
    | _, _ => r
    end.

(** The [for] loop of [createGithubBlobs].  The promises of the blobs
    it has requested have no handler until the loop is over. *)
Fixpoint createGithubBlobs_loop (previousTree tree : list treeEntry)
  (promisesGithubCreateBlobs : list (Promise unit)) : M (list (Promise unit)) :=
  match tree with
  | [] => ret promisesGithubCreateBlobs
  | treeEntry_ :: tree' =>
      if inPreviousTree previousTree treeEntry_
      then (* continue *)
        createGithubBlobs_loop previousTree tree' promisesGithubCreateBlobs
      else
        base64Content <- awaitBeside promisesGithubCreateBlobs
                           (getBlobBase64Content (path treeEntry_));;
        c <- getContext;;
        R <- defined (REPO c);;
        githubCreateBlobRequest <-
          createBlob (Repo.owner R) (Repo.repo R) base64Content "base64";;
        createGithubBlobs_loop previousTree tree'
          (promisesGithubCreateBlobs ++ [githubCreateBlobRequest])
  end.

Definition createGithubBlobs (commitSha : option string) : M unit :=
  p1 <- getTree (Some (Js.toString commitSha +:+ "~1"));;
  p2 <- getTree commitSha;;
  now <- getNow;;
  trees <- await (Promise_all now [p1; p2]);;
  let previousTree := default [] (trees !! 0%nat) in
  let tree := default [] (trees !! 1%nat) in
  promisesGithubCreateBlobs <- createGithubBlobs_loop previousTree tree [];;
  (* Wait for all the file uploads to be completed *)
  now <- getNow;;
  await (Promise_all now promisesGithubCreateBlobs);;;
  ret tt.

Definition createGithubTreeAndCommit (tree : list treeEntry)
  (commitMessage : string) : M unit :=
  treeSha <-
    tryCatch
      (c <- getContext;;
       R <- defined (REPO c);;
       createTree (Repo.owner R) (Repo.repo R) tree)
      (fun error =>
         throw {| instanceofError := instanceofError error;
                  message := Some ("Cannot create a new GitHub Tree: "
                                   +:+ Js.toString (message error)) |});;
  c <- getContext;;
  R <- defined (REPO c);;
  newSha <- createCommit (Repo.owner R) (Repo.repo R) commitMessage
              [Task.lastCommitSha (TASK c)] treeSha;;
  assignLastCommitSha newSha.

Definition updateGithubRef : M unit :=
  c <- getContext;;
  R <- defined (REPO c);;
  updateRef (Repo.owner R) (Repo.repo R)
    ("heads/" +:+ Js.toString (Task.branch (TASK c)))
    (Task.lastCommitSha (TASK c)) true.

(** *** [createGithubVerifiedCommit] *)

Definition createGithubVerifiedCommit : M unit :=
  c <- getContext;;
  p <- getTree (Task.localCommit (TASK c));;
  desiredTree <- await p;;
  (* Creates the new blob files in github *)
  c <- getContext;;
  createGithubBlobs (Task.localCommit (TASK c));;;
  c <- getContext;;
  I <- defined (INPUTS c);;
  createGithubTreeAndCommit desiredTree (Inputs.commitMessage I);;;
  updateGithubRef.

(** *** [run] *)

(** The calls that only print ([console.info], [core.debug],
    [core.info], [debugGitStatus]) and [core.setSecret] are left out. *)
Definition run : M unit :=
  (* Get inputs *)
  token <- sync (core_getInput env "token" true);;
  path_ <- sync (core_getInput env "path" true);;
  branch <- sync (core_getInput env "branch" false);;
  commitMessage <- sync (core_getInput env "commit-message" true);;
  let inputs := {| Inputs.token := token; Inputs.path := path_;
                   Inputs.branch := branch;
                   Inputs.commitMessage := commitMessage |} in
  c <- getContext;;
  setContext {| TASK := TASK c; INPUTS := Some inputs;
                PATH := Some (path_resolve env (Inputs.path inputs));
                REPO := REPO c |};;;
  (* Init git; the two addConfig calls are not awaited *)
  c <- getContext;;
  base <- defined (PATH c);;
  sync (simpleGit env base);;;
  R <- identifyRepository;;
  c <- getContext;;
  setContext {| TASK := TASK c; INPUTS := INPUTS c; PATH := PATH c;
                REPO := Some R |};;;
  assignLastCommitSha (Repo.sha R);;;
  status <- call EvStatus (git_status env);;
  c <- getContext;;
  setContext {| TASK := {| Task.lastCommitSha := Task.lastCommitSha (TASK c);
                           Task.branch :=
                             Some (if negb (String.eqb (Inputs.branch inputs) "")
                                   then Inputs.branch inputs
                                   else Repo.branch R);
                           Task.localCommit := Task.localCommit (TASK c) |};
                INPUTS := INPUTS c; PATH := PATH c; REPO := REPO c |};;;
  if isClean status then ret tt
  else
    sync (github_getOctokit env (Inputs.token inputs));;;
    c <- getContext;;
    R' <- defined (REPO c);;
    let useRemoteBranch :=
      negb (Js.strictEq (Task.branch (TASK c)) (Some (Repo.branch R'))) in
    (if useRemoteBranch then createRemoteBranch (Task.branch (TASK c))
     else ret tt);;;
    (* Helper local commit used to generate the remote commit *)
    localCommit <- call (EvAddCommit "./*" "local commit")
                        (git_add_commit env "./*" "local commit");;
    c <- getContext;;
    setContext {| TASK := {| Task.lastCommitSha := Task.lastCommitSha (TASK c);
                             Task.branch := Task.branch (TASK c);
                             Task.localCommit :=
                               Some (Js.replace "HEAD " "" (commit localCommit)) |};
                  INPUTS := INPUTS c; PATH := PATH c; REPO := REPO c |};;;
    createGithubVerifiedCommit.

End Program.

(** The state in which the action starts: [CONTEXT = { TASK: {} }] and
    no call made yet. *)
Definition state0 : State := {| CONTEXT := CONTEXT0; log := [] |}.

(** The outcome of the action, and the calls it made.  A rejection is
    what the caller of [run] reports with [core.setFailed], or the
    uncaught exception with which node ends the process. *)
Definition action (env : Env) : Outcome unit * list Event :=
  let r := run env state0 in (fst r, log (snd r)).

(** ** Reading the log *)


Definition isCreateRef (ev : Event) : bool :=
  match ev with EvCreateRef _ _ _ _ _ => true | _ => false end.

Definition isCreateTree (ev : Event) : bool :=
  match ev with EvCreateTree _ _ _ _ => true | _ => false end.

Definition isCreateCommit (ev : Event) : bool :=
  match ev with EvCreateCommit _ _ _ _ _ _ => true | _ => false end.

(** The owner and repository names a call on the hosting API was made
    with. *)
Definition ownerAndRepo (ev : Event) : option (option string * option string) :=
  match ev with
  | EvCreateRef o r _ _ _ | EvCreateBlob o r _ _ _ | EvCreateTree o r _ _
  | EvCreateCommit o r _ _ _ _ | EvUpdateRef o r _ _ _ _ => Some (o, r)
  | _ => None
  end.

(** The promises of the blob-creation calls of a log, in call order. *)
Fixpoint blobRequests (evs : list Event) : list (Promise unit) :=
  match evs with
  | [] => []
  | EvCreateBlob _ _ _ _ p :: evs' => p :: blobRequests evs'
  | _ :: evs' => blobRequests evs'
  end.

(** The files read, in call order. *)
Fixpoint filesRead (evs : list Event) : list string :=
  match evs with
  | [] => []
  | EvReadFile f :: evs' => f :: filesRead evs'
  | _ :: evs' => filesRead evs'
  end.

(** The values assigned to [CONTEXT.TASK.lastCommitSha], in order. *)
Fixpoint assignments (evs : list Event) : list string :=
  match evs with
  | [] => []
  | EvAssignLastCommitSha v :: evs' => v :: assignments evs'
  | _ :: evs' => assignments evs'
  end.

(** ** The blob differ *)

(** The entries for which the loop of [createGithubBlobs] does not
    [continue]: those it uploads. *)
Fixpoint uploadTasks (previousTree tree : list treeEntry) : list treeEntry :=
  match tree with
  | [] => []
  | treeEntry_ :: tree' =>
      if inPreviousTree previousTree treeEntry_
      then uploadTasks previousTree tree'
      else treeEntry_ :: uploadTasks previousTree tree'
  end.

(** The upload tasks in the words of the specification:
    [{ e in T | e.contentId not in {p.contentId for p in P} }], in the
    order of [T]. *)
Definition uploadTasks_spec (P T : list treeEntry) : list treeEntry :=
  filter (fun e => sha e ∉ sha <$> P) T.

(** ** Vocabulary of the properties *)

(** The file the loop reads for an upload task. *)
Definition taskFile (env : Env) (c : Context) (e : treeEntry) : option string :=
  match PATH c, path e with
  | Some base, Some file => Some (path_join env base file)
  | _, _ => None
  end.

(** The events of the loop: reads of files and blob creations for the
    repository of the context. *)
Definition isUploadEvent (c : Context) (ev : Event) : Prop :=
  match ev with
  | EvReadFile _ => True
  | EvCreateBlob o r _ _ _ =>
      ∃ R, REPO c = Some R ∧ o = Repo.owner R ∧ r = Repo.repo R
  | _ => False
  end.

(** The suffix of a log that starts at the first event satisfying [p]. *)
Fixpoint fromFirst (p : Event → bool) (evs : list Event) : list Event :=
  match evs with
  | [] => []
  | ev :: evs' => if p ev then ev :: evs' else fromFirst p evs'
  end.

(** The events of the parent linkage: the assignments to
    [CONTEXT.TASK.lastCommitSha], the commit creation and the reference
    update. *)
Definition isLinkageEvent (ev : Event) : bool :=
  match ev with
  | EvAssignLastCommitSha _ | EvCreateCommit _ _ _ _ _ _
  | EvUpdateRef _ _ _ _ _ _ => true
  | _ => false
  end.

Definition isFulfilled {A} (r : Outcome A) : bool :=
  match r with Fulfilled _ => true | Rejected _ => false end.


(** The target branch [run] resolves: the branch input, or the
    checked-out branch when the input is empty. *)
Definition targetBranch (input checkedOut : string) : string :=
  if negb (String.eqb input "") then input else checkedOut.

Definition lsTreeArgs (commitSha : option string) : list (option string) :=
  [Some "ls-tree"; Some "-r"; Some "--full-tree"; commitSha].

(** The identifier of the helper commit, as [run] stores it. *)
Definition localCommitOf (env : Env) : option string :=
  match git_add_commit env "./*" "local commit" with
  | Fulfilled r => Some (Js.replace "HEAD " "" (commit r))
  | Rejected _ => None
  end.

(** The snapshot of a commit, empty when its listing fails. *)
Definition snapshot (env : Env) (commitSha : option string) : list treeEntry :=
  match outcome (git_raw env (lsTreeArgs commitSha)) with
  | Fulfilled listing => parseTree listing
  | Rejected _ => []
  end.

Definition targetSnapshot (env : Env) : list treeEntry :=
  snapshot env (localCommitOf env).

Definition parentSnapshot (env : Env) : list treeEntry :=
  snapshot env (Some (Js.toString (localCommitOf env) +:+ "~1")).

(** The owner and repository in the words of the specification: the
    last two slash-separated segments of the URL, once trailing
    whitespace and a trailing [.git] are removed. *)
Definition lastTwoSegments (url : string) : option string * option string :=
  let segments :=
    rev (Js.split (Js.char "/") (Js.replace_dot_git_at_end (Js.trimEnd url))) in
  (segments !! 1%nat, segments !! 0%nat).

(** The segments of the URL as [identifyRepository] cuts them. *)
Definition urlSegments (url : string) : list string :=
  Js.split (Js.char "/") (Js.replace_dot_git_at_end (Js.trimEnd url)).

Definition someRepo : Repo.t :=
  {| Repo.repo := Some "action-verified-commit"; Repo.owner := Some "alvarezfr";
     Repo.branch := "main"; Repo.sha := "l0" |}.

(** A state in which [run] has identified the repository. *)
Definition stateOf (R : Repo.t) (history : list Event) : State :=
  {| CONTEXT := {| TASK := Task.empty; INPUTS := None; PATH := Some "/work";
                   REPO := Some R |};
     log := history |}.

(** ** A model of the hosting service and small worlds to run the action in *)

(** Modelled from the spec: the reference store of the hosting service,
    which is not part of the repository.  [createRef(owner, repo, ref,
    sha) -> ok | AlreadyExists] adds a reference that does not exist;
    [updateRef(owner, repo, ref, sha, force=true) -> ok] overwrites one. *)
Definition refsAfter (refs0 : gmap string string) (history : list Event)
  : gmap string string :=
  foldl (fun refs ev =>
           match ev with
           | EvCreateRef _ _ sha_ ref (Fulfilled _) => <[ref := sha_]> refs
           | EvUpdateRef _ _ ref (Some sha_) _ (Fulfilled _) =>
               <["refs/" +:+ ref := sha_]> refs
           | _ => refs
           end) refs0 history.

(** The value with which the client reports the outcome [AlreadyExists]
    of [createRef]; the spec names the outcome and does not give the
    value.  Octokit rejects with a [RequestError], an [Error] whose message
    is the message of the response of the service, [Reference already
    exists], to which its later versions add [ - ] and the URL of the
    documentation: [suffix] is what follows the message of the service. *)
Definition AlreadyExists (suffix : string) : Thrown :=
  Error_ ("Reference already exists" +:+ suffix).


(** Modelled from the spec: the reply of the hosting service to
    [createRef], [ok] or [AlreadyExists]; [report] is the value with which
    the client reports [AlreadyExists]. *)
Definition service_createRef (report : Thrown) (refs0 : gmap string string)
  (history : list Event) (owner repo : option string) (sha_ ref : string)
  : Outcome unit :=
  match refsAfter refs0 history !! ref with
  | Some _ => Rejected report
  | None => Fulfilled tt
  end.

(** A small world: a checked-out repository, the inputs of the action,
    and the references of the remote repository. *)
Record World := {
  w_token : string;
  w_branchInput : string;
  w_origin : Outcome string;
  w_branch : string;
  w_head : string;
  w_clean : bool;
  w_commit : string;
  w_listing : option string -> Outcome string;
  w_file : string -> Outcome string;
  w_blob : string -> Promise unit;
  w_createRefFault : option Thrown;
  w_refs : gmap string string;
  w_alreadyExists : Thrown;
  w_clock : list Event -> nat;
  w_unhandledRejections : UnhandledRejections
}.

(** [core.getInput]: an input that is required and not supplied
    throws. *)
Definition getInput_of (value : string) (required : bool) : Outcome string :=
  if required && String.eqb value ""
  then Rejected (Error_ "Input required and not supplied")
  else Fulfilled value.

Definition envOf (w : World) : Env :=
  {| core_getInput := fun name required =>
       getInput_of (if String.eqb name "token" then w_token w
                    else if String.eqb name "path" then "."
                    else if String.eqb name "branch" then w_branchInput w
                    else "Automated commit") required;
     path_resolve := fun p => "/work";
     path_join := fun base file => base +:+ "/" +:+ file;
     toString_base64 := fun bytes => "b64:" +:+ bytes;
     simpleGit := fun _ => Fulfilled tt;
     git_revparse := fun args =>
       Fulfilled (if decide (args = ["HEAD"]) then w_head w else w_branch w);
     git_remote := fun _ => w_origin w;
     git_status := Fulfilled {| isClean := w_clean w |};
     git_raw := fun args =>
       {| settledAt := 1; outcome := w_listing w (default None (args !! 3%nat)) |};
     git_add_commit := fun _ _ => Fulfilled {| commit := w_commit w |};
     fs_readFile := w_file w;
     github_getOctokit := fun _ => Fulfilled tt;
     octokit_createRef := fun history owner repo sha_ ref =>
       match w_createRefFault w with
       | Some e => Rejected e
       | None =>
           service_createRef (w_alreadyExists w) (w_refs w) history owner repo
             sha_ ref
       end;
     octokit_createBlob := fun _ _ _ content _ => w_blob w content;
     octokit_createTree := fun _ _ _ _ => Fulfilled "tree1";
     octokit_createCommit := fun _ _ _ _ _ _ => Fulfilled "commit1";
     octokit_updateRef := fun _ _ _ _ _ _ => Fulfilled tt;
     clock := w_clock w;
     unhandledRejections := w_unhandledRejections w |}.

Definition line (mode_ type_ sha_ file : string) : string :=
  mode_ +:+ " " +:+ type_ +:+ " " +:+ sha_ +:+ String Js.TAB file
  +:+ String Js.LF "".

Definition httpsOrigin : string :=
  "https://github.com/alvarezfr/action-verified-commit.git" +:+ String Js.LF "".

Definition sshOrigin : string :=
  "git@github.com:alvarezfr/action-verified-commit.git" +:+ String Js.LF "".

Definition NotAValidObjectName : Thrown := Error_ "fatal: Not a valid object name".

(** The listings of a repository whose commit [c1] adds [y.txt] to the
    [x.txt] of its parent. *)
Definition listing_xy (ref : option string) : Outcome string :=
  if decide (ref = Some "c1~1")
  then Fulfilled (line "100644" "blob" "a1" "x.txt")
  else if decide (ref = Some "c1")
  then Fulfilled (line "100644" "blob" "a1" "x.txt"
                  +:+ line "100644" "blob" "b2" "y.txt")
  else Rejected NotAValidObjectName.

(** The same, with a submodule [lib] added by [c1] as well. *)
Definition listing_xy_lib (ref : option string) : Outcome string :=
  if decide (ref = Some "c1~1")
  then Fulfilled (line "100644" "blob" "a1" "x.txt")
  else if decide (ref = Some "c1")
  then Fulfilled (line "100644" "blob" "a1" "x.txt"
                  +:+ line "100644" "blob" "b2" "y.txt"
                  +:+ line "160000" "commit" "c3" "lib")
  else Rejected NotAValidObjectName.

(** A world in which the local steps take no time: git answers at the
    instant 1, the run stays at that instant, and the hosting service
    answers later.  The client reports an existing reference with the
    message of the service alone. *)
Definition world (branchInput : string) (origin : Outcome string) (clean : bool)
  (listing : option string → Outcome string) (file : string → Outcome string)
  (blob : string → Promise unit) (fault : option Thrown)
  (refs : gmap string string) : World :=
  {| w_token := "secret";
     w_branchInput := branchInput;
     w_origin := origin;
     w_branch := "main";
     w_head := "l0";
     w_clean := clean;
     w_commit := "HEAD c1";
     w_listing := listing;
     w_file := file;
     w_blob := blob;
     w_createRefFault := fault;
     w_refs := refs;
     w_alreadyExists := AlreadyExists "";
     w_clock := fun _ => 1%nat;
     w_unhandledRejections := EndProcess |}.

Definition readable (f : string) : Outcome string := Fulfilled ("bytes of " +:+ f).

Definition accepted (content : string) : Promise unit :=
  {| settledAt := 2; outcome := Fulfilled tt |}.

Definition Forbidden : Thrown := Error_ "Resource not accessible by integration".

Definition refused (content : string) : Promise unit :=
  {| settledAt := 5; outcome := Rejected Forbidden |}.

Definition EISDIR : Thrown := Error_ "EISDIR: illegal operation on a directory, read".

(** Every file can be read but the directory of the submodule. *)
Definition readable_but_lib (f : string) : Outcome string :=
  if String.eqb f "/work/lib" then Rejected EISDIR else readable f.

Definition refs_main : gmap string string := {["refs/heads/main" := "l0"]}.

Definition refs_main_feature : gmap string string :=
  <["refs/heads/feature" := "r1"]> refs_main.

(** The scenario of the specification: the parent commit has [x.txt],
    the commit to replicate adds [y.txt]. *)
Definition scenario : World :=
  world "" (Fulfilled httpsOrigin) false listing_xy readable accepted None refs_main.




(** The action is asked to commit to [feature], which exists on the
    remote with the tip [r1], from a checkout of [main] at [l0]: with
    changes to replicate, and without. *)
Definition toFeature : World :=
  world "feature" (Fulfilled httpsOrigin) false listing_xy readable accepted None
    refs_main_feature.



(** The reference creation is rejected with an [Error] that is not
    about an existing reference. *)
Definition NotFound : Thrown := Error_ "Not Found".

Definition toFeature_notFound : World :=
  world "feature" (Fulfilled httpsOrigin) false listing_xy readable accepted
    (Some NotFound) refs_main.

(** The checkout was cloned over SSH. *)
Definition clonedOverSsh : World :=
  world "" (Fulfilled sshOrigin) false listing_xy readable accepted None refs_main.

(** The hosting service refuses the blobs. *)
Definition uploadsRefused : World :=
  world "" (Fulfilled httpsOrigin) false listing_xy readable refused None refs_main.

(** The hosting service refuses the blobs, and the commit adds a
    submodule too, whose directory cannot be read as a file. *)
Definition uploadsRefused_submodule : World :=
  world "" (Fulfilled httpsOrigin) false listing_xy_lib readable_but_lib refused
    None refs_main.

(** The commit to replicate only removes [y.txt]: no blob is new. *)
Definition listing_removal (ref : option string) : Outcome string :=
  if decide (ref = Some "c1~1")
  then Fulfilled (line "100644" "blob" "a1" "x.txt"
                  +:+ line "100644" "blob" "b2" "y.txt")
  else if decide (ref = Some "c1")
  then Fulfilled (line "100644" "blob" "a1" "x.txt")
  else Rejected NotAValidObjectName.

Definition onlyRemoval : World :=
  world "" (Fulfilled httpsOrigin) false listing_removal readable accepted None
    refs_main.

(** The commit to replicate is the first commit of the repository: it
    has no parent. *)
Definition listing_first (ref : option string) : Outcome string :=
  if decide (ref = Some "c1")
  then Fulfilled (line "100644" "blob" "a1" "x.txt")
  else Rejected NotAValidObjectName.

Definition firstCommit : World :=
  world "" (Fulfilled httpsOrigin) false listing_first readable accepted None
    refs_main.

Definition entry_x : treeEntry :=
  {| mode := Some "100644"; type := Some "blob"; sha := Some "a1";
     path := Some "x.txt" |}.

Definition entry_y : treeEntry :=
  {| mode := Some "100644"; type := Some "blob"; sha := Some "b2";
     path := Some "y.txt" |}.

(** The commit to replicate has an empty tree. *)
Definition emptyTree : World :=
  world "" (Fulfilled httpsOrigin) false (fun _ => Fulfilled "") readable accepted
    None refs_main.

(** ** Vocabulary of the further properties *)

(** No code unit of [s] satisfies [p]. *)
Fixpoint lacks (p : ascii → bool) (s : string) : bool :=
  match s with
  | EmptyString => true
  | String c s' => negb (p c) && lacks p s'
  end.

(** Every code unit of [s] satisfies [p]. *)
Fixpoint allOf (p : ascii → bool) (s : string) : bool :=
  match s with
  | EmptyString => true
  | String c s' => p c && allOf p s'
  end.

(** A row of [git ls-tree -r]: the four fields of one file. *)
Record Row := { r_mode : string; r_type : string; r_sha : string; r_path : string }.

Definition entryOf (r : Row) : treeEntry :=
  {| mode := Some (r_mode r); type := Some (r_type r); sha := Some (r_sha r);
     path := Some (r_path r) |}.

(** The text git prints for the rows: one line per row, each ended by
    a line feed. *)
Definition lsTreeOutput (rows : list Row) : string :=
  foldr (fun r text => line (r_mode r) (r_type r) (r_sha r) (r_path r) +:+ text)
    "" rows.

(** The fields of a row can be told apart in its line: no whitespace in
    the mode, the type and the sha, no TAB and no line feed in the path. *)
Definition wellFormedRow (r : Row) : bool :=
  lacks Js.isWhiteSpace (r_mode r) && lacks Js.isWhiteSpace (r_type r)
  && lacks Js.isWhiteSpace (r_sha r)
  && lacks (Js.char Js.TAB) (r_path r) && lacks (Js.char Js.LF) (r_path r).

(** The URL [scheme//host/owner/last], followed by whitespace. *)
Definition originUrl (scheme host owner last ws : string) : string :=
  scheme +:+ "//" +:+ host +:+ "/" +:+ owner +:+ "/" +:+ last +:+ ws.

Definition isUpdateRef (ev : Event) : bool :=
  match ev with EvUpdateRef _ _ _ _ _ _ => true | _ => false end.

Definition isAddCommit (ev : Event) : bool :=
  match ev with EvAddCommit _ _ => true | _ => false end.

Definition isRaw (ev : Event) : bool :=
  match ev with EvRaw _ => true | _ => false end.

(** The calls that create or move an object of the remote repository
    after the branch is ensured. *)
Definition isObjectCall (ev : Event) : bool :=
  match ev with
  | EvCreateBlob _ _ _ _ _ | EvCreateTree _ _ _ _ | EvCreateCommit _ _ _ _ _ _
  | EvUpdateRef _ _ _ _ _ _ => true
  | _ => false
  end.

(** The content and the encoding of the blob-creation calls of a log,
    in call order. *)
Fixpoint blobContents (evs : list Event) : list (string * string) :=
  match evs with
  | [] => []
  | EvCreateBlob _ _ content encoding _ :: evs' =>
      (content, encoding) :: blobContents evs'
  | _ :: evs' => blobContents evs'
  end.

(** The events a run of the loop adds to the log. *)
Definition added (st st' : State) : list Event :=
  drop (length (log st)) (log st').

(** What [createGithubTreeAndCommit] makes of the failure of the
    tree-creation call. *)
Definition treeFailure (e : Thrown) : Thrown :=
  {| instanceofError := instanceofError e;
     message := Some ("Cannot create a new GitHub Tree: " +:+ Js.toString (message e)) |}.

(** *** [debugGitStatus] *)

(** The values a property of the status object of simple-git holds. *)
Inductive StatusValue :=
| SvArray (items : list string)
| SvNumber (n : Z)
| SvString (s : string)
| SvBoolean (b : bool)
| SvNull
| SvFunction.

(** [typeof value === 'object' && value && value.length > 0] *)
Definition isNonEmptyObject (value : StatusValue) : bool :=
  match value with
  | SvArray items => (0 <? Z.of_nat (length items))%Z
  | SvNull => false
  | SvNumber _ | SvString _ | SvBoolean _ | SvFunction => false
  end.

(** [debugGitStatus(gitStatus)]: the lines it prints with
    [core.debug], for the entries of the status object in their order.
    [stringify] is [JSON.stringify]. *)
Definition debugGitStatus (stringify : StatusValue → string)
  (gitStatus : list (string * StatusValue)) : list string :=
  "git status:"
  :: flat_map
       (fun entry =>
          let key := fst entry in
          let value := snd entry in
          if negb (String.eqb key "files") && isNonEmptyObject value
          then ["  " +:+ key +:+ ": " +:+ stringify value]
          else [])
       gitStatus.

(** The properties of the status that are to be printed: those that
    hold an array with an element, but for the property [files]. *)
Definition isPrinted (entry : string * StatusValue) : bool :=
  negb (String.eqb (fst entry) "files")
  && match snd entry with
     | SvArray (_ :: _) => true
     | _ => false
     end.

(** *** Further worlds *)

(** The environment [env], but with a hosting service that rejects
    tree creation, commit creation or the reference update. *)
Definition withReplies (env : Env) (treeReply commitReply : Outcome string)
  (updateReply : Outcome unit) : Env :=
  {| core_getInput := core_getInput env;
     path_resolve := path_resolve env;
     path_join := path_join env;
     toString_base64 := toString_base64 env;
     simpleGit := simpleGit env;
     git_revparse := git_revparse env;
     git_remote := git_remote env;
     git_status := git_status env;
     git_raw := git_raw env;
     git_add_commit := git_add_commit env;
     fs_readFile := fs_readFile env;
     github_getOctokit := github_getOctokit env;
     octokit_createRef := octokit_createRef env;
     octokit_createBlob := octokit_createBlob env;
     octokit_createTree := fun _ _ _ _ => treeReply;
     octokit_createCommit := fun _ _ _ _ _ _ => commitReply;
     octokit_updateRef := fun _ _ _ _ _ _ => updateReply;
     clock := clock env;
     unhandledRejections := unhandledRejections env |}.

Definition ValidationFailed : Thrown := Error_ "Validation Failed".

(** The commit to replicate removes every file: its tree is empty. *)
Definition listing_allRemoved (ref : option string) : Outcome string :=
  if decide (ref = Some "c1~1")
  then Fulfilled (line "100644" "blob" "a1" "x.txt")
  else if decide (ref = Some "c1")
  then Fulfilled ""
  else Rejected NotAValidObjectName.

Definition allRemoved : World :=
  world "" (Fulfilled httpsOrigin) false listing_allRemoved readable accepted None
    refs_main.

Definition row_x : Row :=
  {| r_mode := "100644"; r_type := "blob"; r_sha := "a1"; r_path := "x.txt" |}.

Definition row_spaced : Row :=
  {| r_mode := "100755"; r_type := "blob"; r_sha := "b2";
     r_path := "my dir/my file.txt" |}.

Definition row_trailing : Row :=
  {| r_mode := "100644"; r_type := "blob"; r_sha := "c3"; r_path := "notes " |}.

(** The line of a row, without its line feed, with the path [p]. *)
Definition rowLine (r : Row) (p : string) : string :=
  r_mode r +:+ " " +:+ r_type r +:+ " " +:+ r_sha r +:+ String Js.TAB p.

(** The commit to replicate holds a file whose path has spaces; or a
    file whose path ends with a space. *)
Definition spacedPaths : World :=
  world "" (Fulfilled httpsOrigin) false
    (fun _ => Fulfilled (lsTreeOutput [row_x; row_spaced])) readable accepted None
    refs_main.

Definition trailingSpace : World :=
  world "" (Fulfilled httpsOrigin) false
    (fun _ => Fulfilled (lsTreeOutput [row_x; row_trailing])) readable accepted None
    refs_main.

Definition entry_z : treeEntry :=
  {| mode := Some "100644"; type := Some "blob"; sha := Some "c3";
     path := Some "z.txt" |}.

(** The entry [getTree] makes of an empty line. *)
Definition entry_blank : treeEntry :=
  {| mode := Some ""; type := None; sha := None; path := None |}.

(** *** Worlds in which reading a file takes time *)


(** The world [w] in which every read of a file takes ten instants, the
    rest of the local steps none, under the policy [policy] of node. *)
Definition slowReads (policy : UnhandledRejections) (w : World) : World :=
  {| w_token := w_token w; w_branchInput := w_branchInput w;
     w_origin := w_origin w; w_branch := w_branch w; w_head := w_head w;
     w_clean := w_clean w; w_commit := w_commit w; w_listing := w_listing w;
     w_file := w_file w; w_blob := w_blob w;
     w_createRefFault := w_createRefFault w; w_refs := w_refs w;
     w_alreadyExists := w_alreadyExists w;
     w_clock := fun history => (10 * length (filesRead history))%nat;
     w_unhandledRejections := policy |}.

(** The commit [c1] adds [y.txt], [z.txt] and [w.txt] to the [x.txt]
    of its parent. *)
Definition listing_xyzw (ref : option string) : Outcome string :=
  if decide (ref = Some "c1~1")
  then Fulfilled (line "100644" "blob" "a1" "x.txt")
  else if decide (ref = Some "c1")
  then Fulfilled (line "100644" "blob" "a1" "x.txt"
                  +:+ line "100644" "blob" "b2" "y.txt"
                  +:+ line "100644" "blob" "c3" "z.txt"
                  +:+ line "100644" "blob" "d4" "w.txt")
  else Rejected NotAValidObjectName.

Definition RateLimited : Thrown := Error_ "You have exceeded a secondary rate limit".

(** The hosting service refuses the blob of [y.txt], requested at the
    instant 10, at the instant 29, and the blob of [z.txt], requested at
    the instant 20, at the instant 24; it accepts the others at the
    instant 32. *)
Definition refused_y_then_z (content : string) : Promise unit :=
  if String.eqb content "b64:bytes of /work/y.txt"
  then {| settledAt := 29; outcome := Rejected Forbidden |}
  else if String.eqb content "b64:bytes of /work/z.txt"
  then {| settledAt := 24; outcome := Rejected RateLimited |}
  else {| settledAt := 32; outcome := Fulfilled tt |}.

Definition twoRefusals (policy : UnhandledRejections) : World :=
  slowReads policy
    (world "" (Fulfilled httpsOrigin) false listing_xyzw readable refused_y_then_z
       None refs_main).


(** * Properties *)

(** ** JavaScript strings and arrays *)

Example trimEnd_ex :
  Js.trimEnd ("a b" +:+ String Js.LF (String Js.LF "")) = "a b".
Proof. reflexivity. Qed.

Example replace_ex : Js.replace "HEAD " "" "HEAD 1a2b3c" = "1a2b3c".
Proof. reflexivity. Qed.

Example replace_dot_git_ex :
  Js.replace_dot_git_at_end "https://x/o/r.git.git" = "https://x/o/r.git".
Proof. reflexivity. Qed.

Example split_ex : Js.split (Js.char "/") "https://github.com/o/r"
                   = ["https:"; ""; "github.com"; "o"; "r"].
Proof. reflexivity. Qed.

Lemma strictEq_true x y : Js.strictEq x y = true ↔ x = y.
Proof.
  destruct x as [a|], y as [b|]; simpl; try (split; congruence).
  rewrite String.eqb_eq. split; congruence.
Qed.

Lemma findIndex_bounds {A} (p : A → bool) a : (-1 ≤ Js.findIndex p a)%Z.
Proof.
  induction a as [|x a IH]; simpl; [lia|].
  destruct (p x); [lia|]. destruct (Z.eqb_spec (Js.findIndex p a) (-1)); lia.
Qed.

Lemma findIndex_none {A} (p : A → bool) a :
  Js.findIndex p a = (-1)%Z ↔ ∀ x, x ∈ a → p x = false.
Proof.
  induction a as [|x a IH]; simpl.
  - split; [intros _ y Hy; inversion Hy | done].
  - destruct (p x) eqn:Hpx.
    + split; [lia|]. intros H. specialize (H x (list_elem_of_here _ _)). congruence.
    + pose proof (findIndex_bounds p a) as Hb.
      destruct (Z.eqb_spec (Js.findIndex p a) (-1)) as [Heq|Hne].
      * split; [|done]. intros _ y Hy. apply elem_of_cons in Hy as [->|Hy]; [done|].
        by apply IH.
      * split; [lia|]. intros H. exfalso. apply Hne, IH.
        intros y Hy. apply H. by right.
Qed.

Lemma split_nonempty sep s : Js.split sep s ≠ [].
Proof. destruct s as [|c s]; simpl; [done|]. destruct (sep c); [done|]. by destruct (Js.split sep s). Qed.

Lemma split_length sep s : (1 ≤ length (Js.split sep s))%nat.
Proof. pose proof (split_nonempty sep s). destruct (Js.split sep s); simpl; [done|lia]. Qed.

(** ** The test of the blob differ *)

Lemma inPreviousTree_true P e : inPreviousTree P e = true ↔ sha e ∈ sha <$> P.
Proof.
  unfold inPreviousTree. rewrite negb_true_iff, Z.eqb_neq, findIndex_none.
  rewrite list_elem_of_fmap. split.
  - intros H. destruct (decide (sha e ∈ sha <$> P)) as [Hin|Hnin].
    + by apply list_elem_of_fmap in Hin.
    + exfalso. apply H. intros x Hx. apply not_true_is_false. intros Heq.
      apply strictEq_true in Heq. apply Hnin, list_elem_of_fmap. eauto.
  - intros (x & Hx & Hin) H. specialize (H x Hin).
    assert (Js.strictEq (sha x) (sha e) = true) by (by apply strictEq_true).
    congruence.
Qed.

Lemma uploadTasks_filter P T : uploadTasks P T = uploadTasks_spec P T.
Proof.
  unfold uploadTasks_spec. induction T as [|e T IH]; [done|].
  simpl. rewrite filter_cons. destruct (inPreviousTree P e) eqn:Hin.
  - apply inPreviousTree_true in Hin. by rewrite decide_False by tauto.
  - rewrite decide_True; [by rewrite IH|].
    intros Hin'. apply inPreviousTree_true in Hin'. congruence.
Qed.

(** ** The parser of the tree reader *)

Lemma parseTree_length listing : (1 ≤ length (parseTree listing))%nat.
Proof. unfold parseTree. rewrite length_map. apply split_length. Qed.

Lemma parseTree_blank listing :
  Js.trimEnd listing = "" →
  parseTree listing = [{| mode := Some ""; type := None; sha := None; path := None |}].
Proof. unfold parseTree. by intros ->. Qed.

(** ** The loop of [createGithubBlobs] *)

Lemma blobRequests_app evs1 evs2 :
  blobRequests (evs1 ++ evs2) = blobRequests evs1 ++ blobRequests evs2.
Proof.
  induction evs1 as [|ev evs1 IH]; [done|]. destruct ev; simpl; by rewrite ?IH.
Qed.

Lemma filesRead_app evs1 evs2 :
  filesRead (evs1 ++ evs2) = filesRead evs1 ++ filesRead evs2.
Proof.
  induction evs1 as [|ev evs1 IH]; [done|]. destruct ev; simpl; by rewrite ?IH.
Qed.

Lemma assignments_app evs1 evs2 :
  assignments (evs1 ++ evs2) = assignments evs1 ++ assignments evs2.
Proof.
  induction evs1 as [|ev evs1 IH]; [done|]. destruct ev; simpl; by rewrite ?IH.
Qed.

(** Which rejection a join reports. *)

Lemma earliestRejection_None {A} (ps : list (Promise A)) :
  earliestRejection ps = None → ∀ p, p ∈ ps → isRejected p = false.
Proof.
  induction ps as [|q ps IH]; intros Hnone p Hin; [by inversion Hin|].
  simpl in Hnone. unfold isRejected.
  destruct (outcome q) as [v|e] eqn:Hq.
  - apply elem_of_cons in Hin as [->|Hin]; [by rewrite Hq|]. by apply IH.
  - destruct (earliestRejection ps) as [[t' e']|]; [|done].
    by destruct (settledAt q <=? t')%nat.
Qed.

Lemma earliestRejection_Some {A} (ps : list (Promise A)) t e :
  earliestRejection ps = Some (t, e) →
  ∃ p, p ∈ ps ∧ outcome p = Rejected e ∧ settledAt p = t
       ∧ ∀ q, q ∈ ps → isRejected q = true → (t ≤ settledAt q)%nat.
Proof.
  revert t e. induction ps as [|q ps IH]; intros t e Hsome; [done|].
  simpl in Hsome. destruct (outcome q) as [v|e0] eqn:Hq.
  - destruct (IH _ _ Hsome) as (p & Hin & Hp & Ht & Hmin).
    exists p. split; [by right|]. split; [done|]. split; [done|].
    intros q' Hin' Hrej. apply elem_of_cons in Hin' as [->|Hin'].
    + unfold isRejected in Hrej. by rewrite Hq in Hrej.
    + by apply Hmin.
  - destruct (earliestRejection ps) as [[t' e']|] eqn:Hps.
    + destruct (IH _ _ eq_refl) as (p & Hin & Hp & Ht & Hmin).
      destruct (Nat.leb_spec (settledAt q) t'); simplify_eq.
      * exists q. split; [by left|]. split; [done|]. split; [done|].
        intros q' Hin' Hrej. apply elem_of_cons in Hin' as [->|Hin']; [done|].
        specialize (Hmin _ Hin' Hrej). lia.
      * exists p. split; [by right|]. split; [done|]. split; [done|].
        intros q' Hin' Hrej. apply elem_of_cons in Hin' as [->|Hin']; [lia|].
        by apply Hmin.
    + simplify_eq. exists q. split; [by left|]. split; [done|]. split; [done|].
      intros q' Hin' Hrej. apply elem_of_cons in Hin' as [->|Hin']; [done|].
      by rewrite (earliestRejection_None _ Hps _ Hin') in Hrej.
Qed.

Ltac unfold_monad :=
  unfold bind, tryCatch, ret, throw, await, sync, call, start, getLog,
    getContext, setContext, defined, getNow in *.

(** What node makes of the outcome of an [await] beside unhandled
    promises: the outcome itself, or a rejection in its place. *)
Lemma awaitBeside_cases {A} env ps (m : M A) st :
  awaitBeside env ps m st = m st
  ∨ ∃ e, awaitBeside env ps m st = (Rejected e, (m st).2)
         ∧ unhandledRejections env = EndProcess
         ∧ ∃ p, p ∈ ps ∧ outcome p = Rejected e
                ∧ (settledAt p < clock env (log (m st).2))%nat.
Proof.
  unfold awaitBeside.
  destruct (unhandledRejections env); [|by left].
  destruct (earliestRejection _) as [[t e]|] eqn:Hfirst; [|by left].
  right. exists e. split; [done|]. split; [done|].
  apply earliestRejection_Some in Hfirst as (p & Hin & Hp & _).
  apply list_elem_of_In, filter_In in Hin as [Hin Hbefore].
  exists p. split; [by apply list_elem_of_In|]. split; [done|].
  by apply Nat.ltb_lt.
Qed.

(** One file read of the loop: what [getBlobBase64Content] leaves in
    the log and returns. *)
Lemma getBlobBase64Content_spec env file st :
  ∃ evs,
    (getBlobBase64Content env file st).2
    = {| CONTEXT := CONTEXT st; log := log st ++ evs |}
    ∧ match (getBlobBase64Content env file st).1 with
      | Fulfilled content =>
          ∃ base f bytes,
            PATH (CONTEXT st) = Some base ∧ file = Some f
            ∧ fs_readFile env (path_join env base f) = Fulfilled bytes
            ∧ content = toString_base64 env bytes
            ∧ evs = [EvReadFile (path_join env base f)]
      | Rejected _ => evs = [] ∨ ∃ f, evs = [EvReadFile f]
      end.
Proof.
  unfold getBlobBase64Content. unfold_monad. simpl.
  destruct (PATH (CONTEXT st)) as [base|]; [destruct file as [f|]|]; simpl.
  2,3: exists []; rewrite app_nil_r; split; [by destruct st|left; reflexivity].
  exists [EvReadFile (path_join env base f)].
  destruct (fs_readFile env (path_join env base f)) as [bytes|err] eqn:Hfile; simpl.
  - split; [done|]. by exists base, f, bytes.
  - split; [done|]. right. by eexists.
Qed.

Lemma createGithubBlobs_loop_spec env P T : ∀ ps0 st r st',
  createGithubBlobs_loop env P T ps0 st = (r, st') →
  ∃ evs,
    CONTEXT st' = CONTEXT st ∧
    log st' = log st ++ evs ∧
    Forall (isUploadEvent (CONTEXT st)) evs ∧
    match r with
    | Fulfilled ps =>
        ps = ps0 ++ blobRequests evs ∧
        Some <$> filesRead evs = taskFile env (CONTEXT st) <$> uploadTasks P T ∧
        length (blobRequests evs) = length (uploadTasks P T)
    | Rejected e =>
        (length (blobRequests evs) < length (uploadTasks P T))%nat
    end.
Proof.
  induction T as [|e T IH]; intros ps0 st r st' Hrun; simpl in Hrun.
  - inversion Hrun; subst. exists []. rewrite !app_nil_r. by repeat split.
  - simpl. destruct (inPreviousTree P e) eqn:Hin; [by apply IH|].
    unfold bind in Hrun at 1.
    destruct (getBlobBase64Content_spec env (path e) st) as (evs0 & Hst & Hread).
    match goal with
    | |- ?G =>
        assert (Hfail : ∀ err,
                  (r, st') = (Rejected err, (getBlobBase64Content env (path e) st).2) →
                  (evs0 = [] ∨ ∃ f, evs0 = [EvReadFile f]) → G)
    end.
    { intros err [= -> ->] Hevs0. rewrite Hst. exists evs0. simpl.
      split; [done|]. split; [done|].
      destruct Hevs0 as [->|[f ->]]; simpl; (split; [by repeat constructor|lia]). }
    destruct (awaitBeside_cases env ps0 (getBlobBase64Content env (path e)) st)
      as [Hsame|(err & Hend & _)].
    2: { rewrite Hend in Hrun. symmetry in Hrun. apply (Hfail _ Hrun).
         destruct (getBlobBase64Content env (path e) st).1 as [content|err'];
           [|done].
         destruct Hread as (? & f & ? & _ & _ & _ & _ & ->). right. by eexists. }
    rewrite Hsame in Hrun.
    destruct (getBlobBase64Content env (path e) st) as [[content|err] st1] eqn:Hget;
      simpl in Hst, Hread.
    2: { symmetry in Hrun. by apply (Hfail _ Hrun). }
    destruct Hread as (base & file & bytes & HP & Hf & _ & _ & ->). subst st1.
    unfold createBlob in Hrun. unfold_monad. simpl in Hrun.
    destruct (REPO (CONTEXT st)) as [R|] eqn:HR; simpl in Hrun.
    2: { inversion Hrun; subst. exists [EvReadFile (path_join env base file)].
         repeat split; [by repeat constructor|simpl; lia]. }
    apply IH in Hrun as (evs & Hc & Hl & Hall & Hr). simpl in Hc, Hl, Hall.
    eexists (EvReadFile (path_join env base file) :: EvCreateBlob _ _ _ _ _ :: evs).
    rewrite Hc, Hl, <- !app_assoc. simpl.
    split; [done|]. split; [done|]. split.
    { constructor; [done|]. constructor; [by exists R|]. done. }
    destruct r as [ps|err].
    + destruct Hr as (-> & Hfiles & Hlen). rewrite <- app_assoc.
      unfold taskFile in Hfiles |- *. simpl in Hfiles |- *.
      rewrite HP in Hfiles |- *. rewrite Hf.
      repeat split; [by f_equal|by rewrite Hlen].
    + simpl. lia.
Qed.

(** ** The tree reader: claims C9 and C10 *)

(** C10.  [getTree] returns at least one entry for every listing text:
    the promise it returns for a listing that arrives is fulfilled with
    the parsed listing, which is never empty; when the listing is the
    empty string (or only whitespace) the snapshot is the single entry
    with an empty mode and no type, sha or path. *)
Theorem getTree_returns_an_entry env commitSha st listing :
  outcome (git_raw env (lsTreeArgs commitSha)) = Fulfilled listing →
  ∃ p, getTree env commitSha st
       = (Fulfilled p, {| CONTEXT := CONTEXT st;
                          log := log st ++ [EvRaw (lsTreeArgs commitSha)] |})
       ∧ outcome p = Fulfilled (parseTree listing)
       ∧ (1 ≤ length (parseTree listing))%nat
       ∧ (Js.trimEnd listing = "" →
          parseTree listing
          = [{| mode := Some ""; type := None; sha := None; path := None |}])
       ∧ parseTree ""
         = [{| mode := Some ""; type := None; sha := None; path := None |}].
Proof.
  intros Hlisting. unfold getTree, start. fold (lsTreeArgs commitSha).
  rewrite Hlisting. eexists. split; [reflexivity|]. simpl.
  split; [done|]. split; [apply parseTree_length|].
  split; [apply parseTree_blank|done].
Qed.

(** C9.  A commit reference that does not resolve makes the promise of
    [getTree] reject with the failure of git: no snapshot is returned,
    and a caller that awaits it is interrupted by that failure.  In
    [createGithubBlobs], a parent that does not resolve ends the function
    with that failure right after the two listings, before any blob is
    read or created. *)
Theorem getTree_signals_unresolved env commitSha st e :
  outcome (git_raw env (lsTreeArgs commitSha)) = Rejected e →
  (∃ p, getTree env commitSha st
        = (Fulfilled p, {| CONTEXT := CONTEXT st;
                           log := log st ++ [EvRaw (lsTreeArgs commitSha)] |})
        ∧ outcome p = Rejected e
        ∧ (∀ tree, outcome p ≠ Fulfilled tree)
        ∧ (∀ st', await p st' = (Rejected e, st')))
  ∧ (∀ child,
       commitSha = Some (Js.toString child +:+ "~1") →
       isFulfilled (outcome (git_raw env (lsTreeArgs child))) = true →
       createGithubBlobs env child st
       = (Rejected e,
          {| CONTEXT := CONTEXT st;
             log := log st ++ [EvRaw (lsTreeArgs commitSha);
                               EvRaw (lsTreeArgs child)] |})).
Proof.
  intros Hlisting. split.
  - unfold getTree, start, await. fold (lsTreeArgs commitSha).
    rewrite Hlisting. eexists. split; [reflexivity|]. simpl.
    split; [done|]. split; [congruence|done].
  - intros child -> Hchild.
    unfold createGithubBlobs, getTree. unfold_monad. simpl.
    fold (lsTreeArgs (Some (Js.toString child +:+ "~1"))).
    fold (lsTreeArgs child). unfold Promise_all. simpl.
    rewrite Hlisting.
    destruct (outcome (git_raw env (lsTreeArgs child))); [|done].
    destruct (_ <? _)%nat; simpl; by rewrite <- app_assoc.
Qed.

(** ** The blob differ: claim C1 *)

(** C1.  For every parent snapshot [P] and target snapshot [T], the
    upload tasks are exactly the entries of [T] whose sha is the sha of no
    entry of [P], in the order of [T]; the loop of [createGithubBlobs],
    when it completes, has read the files of exactly these tasks in that
    order and requested one blob for each; and two runs of the loop on
    the same snapshots read the same sequence of files, whatever was
    logged before. *)
Theorem uploadTasks_are_the_new_blobs (P T : list treeEntry) :
  uploadTasks P T = uploadTasks_spec P T
  ∧ (∀ e, e ∈ uploadTasks P T ↔ e ∈ T ∧ sha e ∉ sha <$> P)
  ∧ uploadTasks P T `sublist_of` T
  ∧ (∀ env st ps st',
       createGithubBlobs_loop env P T [] st = (Fulfilled ps, st') →
       ∃ evs, log st' = log st ++ evs
              ∧ Some <$> filesRead evs
                = taskFile env (CONTEXT st) <$> uploadTasks P T
              ∧ ps = blobRequests evs
              ∧ length ps = length (uploadTasks P T))
  ∧ (∀ env st1 st2 ps1 ps2 st1' st2',
       CONTEXT st1 = CONTEXT st2 →
       createGithubBlobs_loop env P T [] st1 = (Fulfilled ps1, st1') →
       createGithubBlobs_loop env P T [] st2 = (Fulfilled ps2, st2') →
       filesRead (drop (length (log st1)) (log st1'))
       = filesRead (drop (length (log st2)) (log st2'))).
Proof.
  split; [apply uploadTasks_filter|].
  split.
  { intros e. rewrite uploadTasks_filter. unfold uploadTasks_spec.
    rewrite list_elem_of_filter. tauto. }
  split.
  { rewrite uploadTasks_filter. apply sublist_filter. }
  split.
  - intros env st ps st' Hrun.
    apply createGithubBlobs_loop_spec in Hrun as (evs & _ & Hl & _ & -> & Hf & Hlen).
    exists evs. by repeat split.
  - intros env st1 st2 ps1 ps2 st1' st2' Hc Hrun1 Hrun2.
    apply createGithubBlobs_loop_spec in Hrun1 as (evs1 & _ & Hl1 & _ & _ & Hf1 & _).
    apply createGithubBlobs_loop_spec in Hrun2 as (evs2 & _ & Hl2 & _ & _ & Hf2 & _).
    rewrite Hl1, Hl2, !drop_app_length.
    rewrite Hc in Hf1. rewrite <- Hf2 in Hf1.
    by apply (inj (fmap Some)) in Hf1.
Qed.

(** ** The runs of the action *)

(** The join of two promises. *)
Lemma Promise_all_two {A} now (p1 p2 : Promise A) :
  outcome (Promise_all now [p1; p2])
  = match outcome p1, outcome p2 with
    | Fulfilled a, Fulfilled b => Fulfilled [a; b]
    | Rejected e, Fulfilled _ | Fulfilled _, Rejected e => Rejected e
    | Rejected e1, Rejected e2 =>
        if (settledAt p1 <? now)%nat then Rejected e1
        else if (settledAt p2 <? now)%nat then Rejected e2
        else if (settledAt p1 <=? settledAt p2)%nat then Rejected e1
             else Rejected e2
    end.
Proof.
  unfold Promise_all. simpl.
  destruct (outcome p1), (outcome p2); simpl; try done.
  - by destruct (_ <? _)%nat.
  - by destruct (_ <? _)%nat.
  - destruct (settledAt p1 <? now)%nat; [done|].
    destruct (settledAt p2 <? now)%nat; [done|].
    by destruct (_ <=? _)%nat.
Qed.

(** Symbolic execution of [run]: one case per point at which the run
    can end, with the replies of the collaborators as hypotheses. *)
Ltac exec_loop H :=
  match type of H with
  | context [createGithubBlobs_loop ?env ?P ?T ?ps ?st] =>
      let r := fresh "r" in
      let Hloop := fresh "Hloop" in
      let evs := fresh "evs" in
      let c' := fresh "c" in
      let l' := fresh "l" in
      destruct (createGithubBlobs_loop env P T ps st) as [r [c' l']] eqn:Hloop;
      apply createGithubBlobs_loop_spec in Hloop as (evs & ? & ? & ? & ?);
      simpl in *; subst c' l'
  end.

Ltac exec_match H :=
  match type of H with
  | context [match ?x with _ => _ end] =>
      lazymatch x with
      | context [match _ with _ => _ end] => fail
      | _ => destruct x eqn:?
      end
  end.

Ltac exec H :=
  unfold run, identifyRepository, createRemoteBranch, createGithubVerifiedCommit,
    createGithubBlobs, createGithubTreeAndCommit, updateGithubRef, getTree,
    assignLastCommitSha, createRef, createTree, createCommit, updateRef in H;
  unfold_monad; simpl in H;
  repeat (first [rewrite Promise_all_two in H | exec_loop H | exec_match H];
          simpl in H);
  inversion H; subst; clear H.

Ltac exec_action env :=
  let r := fresh "r" in
  let st := fresh "st" in
  let Hrun := fresh "Hrun" in
  unfold action; destruct (run env state0) as [r st] eqn:Hrun; simpl;
  exec Hrun; simpl.

Lemma upload_event_cases c ev :
  isUploadEvent c ev →
  (∃ f, ev = EvReadFile f)
  ∨ (∃ R content encoding p,
       REPO c = Some R
       ∧ ev = EvCreateBlob (Repo.owner R) (Repo.repo R) content encoding p).
Proof.
  destruct ev; simpl; try done.
  - intros _. left. eauto.
  - intros (R & HR & -> & ->). right. eauto 10.
Qed.

Lemma upload_events_filter c (q : Event → bool) evs :
  Forall (isUploadEvent c) evs →
  (∀ f, q (EvReadFile f) = false) →
  (∀ o r content encoding p, q (EvCreateBlob o r content encoding p) = false) →
  List.filter q evs = [].
Proof.
  intros Hall Hread Hblob. induction Hall as [|ev evs Hev _ IH]; [done|].
  simpl. rewrite IH.
  destruct (upload_event_cases _ _ Hev) as [(f & ->)|(R & ? & ? & ? & _ & ->)];
    by rewrite ?Hread, ?Hblob.
Qed.

Lemma upload_events_forall c (q : Event → bool) evs :
  Forall (isUploadEvent c) evs →
  (∀ f, q (EvReadFile f) = false) →
  (∀ o r content encoding p, q (EvCreateBlob o r content encoding p) = false) →
  ∀ ev, ev ∈ evs → q ev = false.
Proof.
  intros Hall Hread Hblob ev Hin. rewrite Forall_forall in Hall.
  destruct (upload_event_cases _ _ (Hall _ Hin)) as [(f & ->)|(R & ? & ? & ? & _ & ->)];
    by rewrite ?Hread, ?Hblob.
Qed.


Lemma elem_of_filter_bool (q : Event → bool) ev evs :
  ev ∈ evs → q ev = true → ev ∈ List.filter q evs.
Proof. intros Hin Hq. apply list_elem_of_In, filter_In. by rewrite <- list_elem_of_In. Qed.

(** Push a projection of the log through the events of the upload
    loop. *)
Ltac project_log :=
  simpl;
  rewrite ?List.filter_app, ?blobRequests_app, ?assignments_app;
  repeat (erewrite upload_events_filter by (eassumption || done));
  simpl.

Ltac project_log_in H :=
  simpl in H;
  rewrite ?List.filter_app in H;
  repeat (erewrite upload_events_filter in H by (eassumption || done));
  simpl in H.

Lemma fromFirst_app_none p evs1 evs2 :
  (∀ ev, ev ∈ evs1 → p ev = false) →
  fromFirst p (evs1 ++ evs2) = fromFirst p evs2.
Proof.
  induction evs1 as [|ev evs1 IH]; intros Hnone; [done|]. simpl.
  rewrite (Hnone ev) by apply list_elem_of_here.
  apply IH. intros ev' Hin. apply Hnone. by right.
Qed.


Ltac eqb_refl_cases :=
  repeat match goal with
    | H : (?x =? ?x)%string = false |- _ => rewrite String.eqb_refl in H; done
    | H : negb (?x =? ?x)%string = true |- _ => rewrite String.eqb_refl in H; done
    end.

(** ** Tree creation: claim C2 *)

(** C2.  In every run that reaches tree creation, the tree-creation
    call is made once, with the full snapshot of the commit to
    replicate: every entry that [getTree] parsed from the recursive
    listing of the helper commit, each with its mode, type, sha and path,
    whatever the upload tasks were. *)
Theorem createTree_receives_the_full_snapshot env o r tree reply :
  EvCreateTree o r tree reply ∈ (action env).2 →
  ∃ localCommit listing,
    localCommitOf env = Some localCommit
    ∧ outcome (git_raw env (lsTreeArgs (Some localCommit))) = Fulfilled listing
    ∧ tree = parseTree listing
    ∧ tree = targetSnapshot env
    ∧ uploadTasks (parentSnapshot env) (targetSnapshot env) `sublist_of` tree
    ∧ List.filter isCreateTree (action env).2 = [EvCreateTree o r tree reply].
Proof.
  intros Hin. apply (elem_of_filter_bool isCreateTree) in Hin; [|done].
  revert Hin.
  unfold targetSnapshot, parentSnapshot, snapshot, localCommitOf, lsTreeArgs.
  exec_action env.
  all: intros Hin; project_log_in Hin.
  all: try (by apply elem_of_nil in Hin).
  all: apply list_elem_of_singleton in Hin; simplify_eq.
  all: eexists _, _; split; [reflexivity|].
  all: repeat match goal with H : _ = Fulfilled _ |- _ => rewrite H end.
  all: repeat split; try done.
  all: try (rewrite uploadTasks_filter; apply sublist_filter).
  all: by project_log.
Qed.

(** ** Failed uploads: claim C3 *)

Lemma rejectedBefore_Some {A} now (ps : list (Promise A)) e :
  rejectedBefore now ps = Some e →
  ∃ p, p ∈ ps ∧ outcome p = Rejected e ∧ (settledAt p < now)%nat.
Proof.
  induction ps as [|q ps IH]; [done|]. simpl.
  destruct (outcome q) as [v|e'] eqn:Hq.
  - intros (p & ? & ?)%IH. exists p. split; [by right|done].
  - destruct (Nat.ltb_spec (settledAt q) now).
    + intros [= ->]. exists q. split; [by left|done].
    + intros (p & ? & ?)%IH. exists p. split; [by right|done].
Qed.

Lemma Promise_all_fulfilled {A} now (ps : list (Promise A)) vs :
  outcome (Promise_all now ps) = Fulfilled vs → earliestRejection ps = None.
Proof.
  unfold Promise_all. destruct (rejectedBefore now ps); [done|].
  by destruct (earliestRejection ps) as [[t e]|].
Qed.

Lemma Promise_all_rejected {A} now (ps : list (Promise A)) e :
  outcome (Promise_all now ps) = Rejected e →
  ∃ p, p ∈ ps ∧ outcome p = Rejected e.
Proof.
  unfold Promise_all. destruct (rejectedBefore now ps) as [e'|] eqn:Hbefore.
  - simpl. intros [= ->].
    apply rejectedBefore_Some in Hbefore as (p & ? & ? & _). by exists p.
  - destruct (earliestRejection ps) as [[t e']|] eqn:Hfirst; [|done].
    simpl. intros [= ->].
    apply earliestRejection_Some in Hfirst as (p & ? & ? & _). by exists p.
Qed.

Ltac join_uploads :=
  repeat match goal with
    | H : outcome (Promise_all _ _) = Fulfilled _ |- _ =>
        apply Promise_all_fulfilled in H
    | H : outcome (Promise_all _ _) = Rejected _ |- _ =>
        apply Promise_all_rejected in H as (? & ? & H)
    end.

(** C3, as amended.  In every run in which a blob upload is rejected,
    the run ends with a failure and no tree-creation call and no
    commit-creation call is ever made; when all the upload tasks were
    issued, that failure is the rejection of one of the uploads that were
    rejected.  Tree creation happens only after every upload task was
    issued and every upload has been fulfilled. *)
Theorem failed_upload_aborts_the_run env :
  (∀ p, p ∈ blobRequests (action env).2 → isRejected p = true →
     (∃ e, (action env).1 = Rejected e
           ∧ (length (blobRequests (action env).2)
              = length (uploadTasks (parentSnapshot env) (targetSnapshot env)) →
              ∃ p', p' ∈ blobRequests (action env).2
                    ∧ outcome p' = Rejected e))
     ∧ List.filter isCreateTree (action env).2 = []
     ∧ List.filter isCreateCommit (action env).2 = [])
  ∧ (∀ ev, ev ∈ (action env).2 → isCreateTree ev = true →
       Forall (λ p, isRejected p = false) (blobRequests (action env).2)
       ∧ length (blobRequests (action env).2)
         = length (uploadTasks (parentSnapshot env) (targetSnapshot env))
       ∧ blobRequests (fromFirst isCreateTree (action env).2) = []).
Proof.
  split.
  - intros p. unfold targetSnapshot, parentSnapshot, snapshot, localCommitOf, lsTreeArgs.
    exec_action env; eqb_refl_cases.
    all: rewrite ?blobRequests_app; simpl; rewrite ?app_nil_r.
    all: intros Hin Hrej.
    all: try (by apply elem_of_nil in Hin).
    all: repeat match goal with
           | H : _ ∧ _ |- _ => destruct H
           end; subst; join_uploads.
    all: try match goal with
           | Hnone : earliestRejection (blobRequests ?evs) = None |- _ =>
               by rewrite (earliestRejection_None _ Hnone _ Hin) in Hrej
           end.
    all: split; [|by project_log].
    all: eexists; split; [reflexivity|].
    all: repeat match goal with H : _ = Fulfilled _ |- _ => rewrite H end.
    all: intros Hlen; try lia.
    all: match goal with
         | Hx : ?x ∈ blobRequests _, Ho : outcome ?x = Rejected _ |- _ =>
             exists x; split; [exact Hx|exact Ho]
         end.
  - intros ev Hin Hct. apply (elem_of_filter_bool isCreateTree) in Hin; [|done].
    clear Hct. revert Hin.
    unfold targetSnapshot, parentSnapshot, snapshot, localCommitOf, lsTreeArgs.
    exec_action env; eqb_refl_cases.
    all: intros Hin; project_log_in Hin.
    all: try (by apply elem_of_nil in Hin).
    all: repeat match goal with
           | H : _ ∧ _ |- _ => destruct H
           end; subst; join_uploads.
    all: rewrite ?blobRequests_app; simpl; rewrite ?app_nil_r.
    all: repeat match goal with H : _ = Fulfilled _ |- _ => rewrite H end.
    all: split; [|split; [done|]].
    all: try (apply Forall_forall; by apply earliestRejection_None).
    all: repeat rewrite <- app_assoc; simpl.
    all: rewrite fromFirst_app_none; [done|].
    all: intros ? ?; eapply upload_events_forall; eauto; done.
Qed.

(** ** Parent linkage: claim C4 *)


(** ** The clean-tree short-circuit: claim C5 *)


(** ** The branch ensurer: claims C6 and C7 *)






Lemma slice_3_5 {A} (a : list A) :
  Js.slice 3 5 a !! 0%nat = a !! 3%nat ∧ Js.slice 3 5 a !! 1%nat = a !! 4%nat.
Proof.
  unfold Js.slice. do 5 (destruct a as [|? a]; try done).
Qed.

Lemma lastTwoSegments_of_five url :
  length (urlSegments url) = 5%nat →
  lastTwoSegments url = (urlSegments url !! 3%nat, urlSegments url !! 4%nat).
Proof.
  unfold lastTwoSegments. fold (urlSegments url).
  destruct (urlSegments url) as [|s0 [|s1 [|s2 [|s3 [|s4 [|s5 l]]]]]]; done.
Qed.

(** ** The owner and the repository: claim C8 *)

(** C8, as amended.  Every call on the hosting API is made with the
    owner and the repository that are the fourth and the fifth
    slash-separated segments of the origin URL, once trailing whitespace
    and a trailing [.git] are removed.  These are the last two segments
    when the URL has five segments, as [https://host/owner/repo] has, and
    both are undefined when the URL has at most three segments. *)
Theorem owner_and_repo_are_segments_3_and_4 env ev :
  ev ∈ (action env).2 → isRemoteCall ev = true →
  ∃ url,
    git_remote env ["get-url"; "origin"] = Fulfilled url
    ∧ ownerAndRepo ev = Some (urlSegments url !! 3%nat, urlSegments url !! 4%nat)
    ∧ (length (urlSegments url) = 5%nat →
       ownerAndRepo ev = Some (lastTwoSegments url))
    ∧ (length (urlSegments url) ≤ 3 → ownerAndRepo ev = Some (None, None)).
Proof.
  intros Hin Hremote.
  cut (∃ url, git_remote env ["get-url"; "origin"] = Fulfilled url
              ∧ ownerAndRepo ev
                = Some (Js.slice 3 5 (urlSegments url) !! 0%nat,
                        Js.slice 3 5 (urlSegments url) !! 1%nat)).
  { intros (url & Hurl & Hev). exists url.
    destruct (slice_3_5 (urlSegments url)) as [H3 H4]. rewrite H3, H4 in Hev.
    split; [done|]. split; [done|]. split.
    - intros Hlen. by rewrite lastTwoSegments_of_five.
    - intros Hlen. rewrite Hev. by rewrite !lookup_ge_None_2 by lia. }
  apply (elem_of_filter_bool isRemoteCall) in Hin; [|done]. clear Hremote.
  revert Hin. unfold urlSegments. exec_action env; eqb_refl_cases.
  all: simpl; rewrite ?List.filter_app; simpl.
  all: intros Hin.
  all: repeat (rewrite ?elem_of_app, ?elem_of_cons, ?elem_of_nil in Hin).
  all: repeat match goal with H : _ ∨ _ |- _ => destruct H as [H|H] end.
  all: try done.
  all: try (subst ev; eexists; split; [reflexivity|done]).
  all: apply list_elem_of_In, filter_In in Hin as [Hin Hq];
       apply list_elem_of_In in Hin.
  all: match goal with
       | Hall : Forall (isUploadEvent _) ?evs, Hin : _ ∈ ?evs |- _ =>
           rewrite Forall_forall in Hall; apply Hall in Hin;
           apply upload_event_cases in Hin
             as [(f & ->)|(R & ? & ? & ? & HR & ->)]
       end.
  all: simpl in *; simplify_eq.
  all: eexists; split; [reflexivity|done].
Qed.

(** ** The claims on small worlds *)

(** The scenario of the specification: the only upload task is
    [y.txt]. *)
Lemma uploadTasks_are_the_new_blobs_witness :
  uploadTasks_spec [entry_x] [entry_x; entry_y] = [entry_y]
  ∧ [entry_y] `sublist_of` [entry_x; entry_y].
Proof.
  destruct (uploadTasks_are_the_new_blobs [entry_x] [entry_x; entry_y])
    as (Hspec & _ & Hsub & _).
  split; [by rewrite <- Hspec|exact Hsub].
Defined.

(** The tree-creation call of a run that has no blob to upload still
    receives the whole snapshot. *)
Lemma createTree_receives_the_full_snapshot_witness :
  EvCreateTree (Some "alvarezfr") (Some "action-verified-commit") [entry_x]
    (Fulfilled "tree1") ∈ (action (envOf onlyRemoval)).2
  ∧ uploadTasks (parentSnapshot (envOf onlyRemoval))
      (targetSnapshot (envOf onlyRemoval)) = []
  ∧ ∃ localCommit listing,
      localCommitOf (envOf onlyRemoval) = Some localCommit
      ∧ outcome (git_raw (envOf onlyRemoval) (lsTreeArgs (Some localCommit)))
        = Fulfilled listing
      ∧ [entry_x] = parseTree listing
      ∧ [entry_x] = targetSnapshot (envOf onlyRemoval)
      ∧ uploadTasks (parentSnapshot (envOf onlyRemoval))
          (targetSnapshot (envOf onlyRemoval)) `sublist_of` [entry_x]
      ∧ List.filter isCreateTree (action (envOf onlyRemoval)).2
        = [EvCreateTree (Some "alvarezfr") (Some "action-verified-commit")
             [entry_x] (Fulfilled "tree1")].
Proof.
  assert (Hin : EvCreateTree (Some "alvarezfr") (Some "action-verified-commit")
                  [entry_x] (Fulfilled "tree1") ∈ (action (envOf onlyRemoval)).2).
  { apply list_elem_of_In. vm_compute. tauto. }
  split; [exact Hin|]. split; [reflexivity|].
  exact (createTree_receives_the_full_snapshot _ _ _ _ _ Hin).
Defined.

(** The hosting service refuses the blob of [y.txt], the only upload
    task: the run ends with the rejection of that upload, and no tree and
    no commit is created. *)
Lemma failed_upload_aborts_the_run_witness :
  refused "b64:bytes of /work/y.txt" ∈ blobRequests (action (envOf uploadsRefused)).2
  ∧ isRejected (refused "b64:bytes of /work/y.txt") = true
  ∧ (∃ e, (action (envOf uploadsRefused)).1 = Rejected e
          ∧ ∃ p', p' ∈ blobRequests (action (envOf uploadsRefused)).2
                  ∧ outcome p' = Rejected e)
  ∧ List.filter isCreateTree (action (envOf uploadsRefused)).2 = []
  ∧ List.filter isCreateCommit (action (envOf uploadsRefused)).2 = [].
Proof.
  assert (Hin : refused "b64:bytes of /work/y.txt"
                ∈ blobRequests (action (envOf uploadsRefused)).2).
  { apply list_elem_of_In. vm_compute. tauto. }
  split; [exact Hin|]. split; [reflexivity|].
  destruct (failed_upload_aborts_the_run (envOf uploadsRefused)) as [Habort _].
  destruct (Habort _ Hin eq_refl) as ((e & He & Hjoin) & Hnone).
  split; [|exact Hnone].
  exists e. split; [exact He|].
  destruct (Hjoin eq_refl) as (p' & Hp' & Hreason).
  exists p'. by split.
Defined.

(** The uploads of [y.txt] and [z.txt] are both rejected before that of
    [w.txt] is requested, the second one first.  Where node only warns,
    the join reports the rejection of [y.txt], which comes first in the
    array; where node ends the process, it ends with the rejection of
    [z.txt] while [w.txt] is read, and the blob of [w.txt] is never
    requested.  No tree is created in either case. *)
Example join_reports_in_array_order :
  (action (envOf (twoRefusals Warn))).1 = Rejected Forbidden
  ∧ filesRead (action (envOf (twoRefusals Warn))).2
    = ["/work/y.txt"; "/work/z.txt"; "/work/w.txt"]
  ∧ length (blobRequests (action (envOf (twoRefusals Warn))).2) = 3%nat
  ∧ List.filter isCreateTree (action (envOf (twoRefusals Warn))).2 = [].
Proof. repeat split; reflexivity. Qed.

Example node_ends_the_process_during_a_read :
  (action (envOf (twoRefusals EndProcess))).1 = Rejected RateLimited
  ∧ filesRead (action (envOf (twoRefusals EndProcess))).2
    = ["/work/y.txt"; "/work/z.txt"; "/work/w.txt"]
  ∧ length (blobRequests (action (envOf (twoRefusals EndProcess))).2) = 2%nat
  ∧ List.filter isCreateTree (action (envOf (twoRefusals EndProcess))).2 = [].
Proof. repeat split; reflexivity. Qed.

(** C3 as stated fails: the upload of [y.txt] is rejected, and the run
    ends with the failure of reading the directory of the submodule, which
    comes next in the tree. *)
Lemma run_can_end_with_a_read_failure :
  blobRequests (action (envOf uploadsRefused_submodule)).2
  = [refused "b64:bytes of /work/y.txt"]
  ∧ outcome (refused "b64:bytes of /work/y.txt") = Rejected Forbidden
  ∧ (action (envOf uploadsRefused_submodule)).1 = Rejected EISDIR
  ∧ EISDIR ≠ Forbidden.
Proof. repeat split; try reflexivity. discriminate. Qed.







(** The reference update of the scenario is made for the owner and the
    repository of the HTTPS URL. *)
Lemma owner_and_repo_are_segments_3_and_4_witness :
  EvUpdateRef (Some "alvarezfr") (Some "action-verified-commit") "heads/main"
    (Some "commit1") true (Fulfilled tt) ∈ (action (envOf scenario)).2
  ∧ ∃ url,
      git_remote (envOf scenario) ["get-url"; "origin"] = Fulfilled url
      ∧ Some (Some "alvarezfr", Some "action-verified-commit")
        = Some (urlSegments url !! 3%nat, urlSegments url !! 4%nat)
      ∧ (length (urlSegments url) = 5%nat →
         Some (Some "alvarezfr", Some "action-verified-commit")
         = Some (lastTwoSegments url))
      ∧ (length (urlSegments url) ≤ 3 →
         Some (Some "alvarezfr", Some "action-verified-commit")
         = Some (None, None)).
Proof.
  assert (Hin : EvUpdateRef (Some "alvarezfr") (Some "action-verified-commit")
                  "heads/main" (Some "commit1") true (Fulfilled tt)
                ∈ (action (envOf scenario)).2).
  { apply list_elem_of_In. vm_compute. tauto. }
  split; [exact Hin|].
  exact (owner_and_repo_are_segments_3_and_4 _ _ Hin eq_refl).
Defined.

(** C8 as stated fails: for a checkout cloned over SSH the last two
    segments of the URL name the repository, and every call on the hosting
    API is made with no owner and no repository. *)
Lemma ssh_origin_has_no_owner :
  git_remote (envOf clonedOverSsh) ["get-url"; "origin"] = Fulfilled sshOrigin
  ∧ lastTwoSegments sshOrigin
    = (Some "git@github.com:alvarezfr", Some "action-verified-commit")
  ∧ omap ownerAndRepo (action (envOf clonedOverSsh)).2
    = [(None, None); (None, None); (None, None); (None, None)].
Proof. repeat split; reflexivity. Qed.

(** The first commit of a repository has no parent: [getTree] rejects,
    and so does [createGithubBlobs]. *)
Lemma getTree_signals_unresolved_witness :
  outcome (git_raw (envOf firstCommit) (lsTreeArgs (Some "c1~1")))
  = Rejected NotAValidObjectName
  ∧ createGithubBlobs (envOf firstCommit) (Some "c1") state0
    = (Rejected NotAValidObjectName,
       {| CONTEXT := CONTEXT0;
          log := [EvRaw (lsTreeArgs (Some "c1~1")); EvRaw (lsTreeArgs (Some "c1"))] |}).
Proof.
  split; [reflexivity|].
  destruct (getTree_signals_unresolved (envOf firstCommit) (Some "c1~1") state0
              NotAValidObjectName eq_refl) as [_ Hcaller].
  exact (Hcaller (Some "c1") eq_refl eq_refl).
Defined.

(** The listing of an empty tree is the empty string: the snapshot has
    one entry. *)
Lemma getTree_returns_an_entry_witness :
  outcome (git_raw (envOf emptyTree) (lsTreeArgs (Some "c1"))) = Fulfilled ""
  ∧ ∃ p, getTree (envOf emptyTree) (Some "c1") state0
         = (Fulfilled p, {| CONTEXT := CONTEXT0;
                            log := [] ++ [EvRaw (lsTreeArgs (Some "c1"))] |})
         ∧ outcome p = Fulfilled (parseTree "")
         ∧ (1 ≤ length (parseTree ""))%nat
         ∧ (Js.trimEnd "" = "" →
            parseTree ""
            = [{| mode := Some ""; type := None; sha := None; path := None |}])
         ∧ parseTree ""
           = [{| mode := Some ""; type := None; sha := None; path := None |}].
Proof.
  split; [reflexivity|].
  exact (getTree_returns_an_entry (envOf emptyTree) (Some "c1") state0 "" eq_refl).
Defined.

(** The scenarios of the specification. *)

Example scenario_uploads_y_only :
  filesRead (action (envOf scenario)).2 = ["/work/y.txt"]
  ∧ uploadTasks (parentSnapshot (envOf scenario)) (targetSnapshot (envOf scenario))
    = [entry_y].
Proof. split; reflexivity. Qed.

Example scenario_tree_has_both_entries :
  List.filter isCreateTree (action (envOf scenario)).2
  = [EvCreateTree (Some "alvarezfr") (Some "action-verified-commit")
       [entry_x; entry_y] (Fulfilled "tree1")].
Proof. reflexivity. Qed.

Example scenario_parent_is_prior_tip :
  List.filter isCreateCommit (action (envOf scenario)).2
  = [EvCreateCommit (Some "alvarezfr") (Some "action-verified-commit")
       "Automated commit" [Some "l0"] "tree1" (Fulfilled "commit1")].
Proof. reflexivity. Qed.

Example same_branch_never_creates_it :
  List.filter isCreateRef (action (envOf scenario)).2 = [].
Proof. reflexivity. Qed.

Example existing_branch_is_no_error :
  (action (envOf toFeature)).1 = Fulfilled tt
  ∧ List.filter isCreateRef (action (envOf toFeature)).2
    = [EvCreateRef (Some "alvarezfr") (Some "action-verified-commit") "l0"
         "refs/heads/feature" (Rejected (AlreadyExists ""))].
Proof. split; reflexivity. Qed.

Example other_createRef_failure_propagates :
  (action (envOf toFeature_notFound)).1 = Rejected NotFound.
Proof. reflexivity. Qed.

(** * Further properties of the code *)

(** ** Strings *)

Lemma append_cons c (a b : string) : String c a +:+ b = String c (a +:+ b).
Proof. reflexivity. Qed.

Lemma append_nil_l (a : string) : "" +:+ a = a.
Proof. reflexivity. Qed.

Ltac napp := rewrite ?append_cons, ?append_nil_l.

Lemma append_assoc (a b c : string) : (a +:+ b) +:+ c = a +:+ (b +:+ c).
Proof. induction a as [|x a IH]; napp; [done|by rewrite IH]. Qed.

Lemma append_eq_nil (a b : string) : a +:+ b = "" → a = "" ∧ b = "".
Proof. by destruct a. Qed.

Lemma lacks_app p a b : lacks p (a +:+ b) = lacks p a && lacks p b.
Proof.
  induction a as [|x a IH]; napp; simpl; [done|]. by rewrite IH, andb_assoc.
Qed.

Lemma lacks_weaken (p q : ascii → bool) s :
  (∀ c, q c = true → p c = true) → lacks p s = true → lacks q s = true.
Proof.
  intros Hpq. induction s as [|c s IH]; simpl; [done|].
  intros [Hc Hs]%andb_true_iff. rewrite IH by done.
  destruct (q c) eqn:Hq; [|done]. by rewrite (Hpq _ Hq) in Hc.
Qed.

Lemma trimEnd_app a b : Js.trimEnd b ≠ "" → Js.trimEnd (a +:+ b) = a +:+ Js.trimEnd b.
Proof.
  intros Hb. induction a as [|x a IH]; napp; simpl; [done|]. rewrite IH.
  destruct (a +:+ Js.trimEnd b) eqn:Heq; [|done].
  by apply append_eq_nil in Heq as [_ ?].
Qed.

Lemma trimEnd_whitespace ws : allOf Js.isWhiteSpace ws = true → Js.trimEnd ws = "".
Proof.
  induction ws as [|c ws IH]; simpl; [done|].
  intros [Hc Hws]%andb_true_iff. by rewrite IH, Hc.
Qed.

Lemma trimEnd_app_whitespace a ws :
  allOf Js.isWhiteSpace ws = true → Js.trimEnd (a +:+ ws) = Js.trimEnd a.
Proof.
  intros Hws. induction a as [|x a IH]; napp; simpl; [by apply trimEnd_whitespace|].
  by rewrite IH.
Qed.

Lemma split_lacks sep s : lacks sep s = true → Js.split sep s = [s].
Proof.
  induction s as [|c s IH]; simpl; [done|].
  intros [Hc Hs]%andb_true_iff. apply negb_true_iff in Hc. by rewrite Hc, IH.
Qed.

Lemma split_app sep a c b :
  lacks sep a = true → sep c = true →
  Js.split sep (a +:+ String c b) = a :: Js.split sep b.
Proof.
  intros Ha Hc. induction a as [|x a IH]; napp; simpl.
  - by rewrite Hc.
  - simpl in Ha. apply andb_true_iff in Ha as [Hx Ha].
    apply negb_true_iff in Hx. by rewrite Hx, IH.
Qed.

Lemma replace_dot_git_at_end_app r : Js.replace_dot_git_at_end (r +:+ ".git") = r.
Proof.
  induction r as [|c r IH]; [done|].
  change (Js.replace_dot_git_at_end (String c r +:+ ".git"))
    with (if String.eqb (String c (r +:+ ".git")) ".git" then ""
          else String c (Js.replace_dot_git_at_end (r +:+ ".git"))).
  rewrite IH. destruct (String.eqb_spec (String c (r +:+ ".git")) ".git") as [Heq|]; [|done].
  exfalso. apply (f_equal String.length) in Heq. simpl in Heq.
  assert (Hlen : ∀ s, String.length (s +:+ ".git") = (String.length s + 4)%nat).
  { intros s. induction s as [|? ? IHs]; napp; simpl; [done|by rewrite IHs]. }
  rewrite Hlen in Heq. lia.
Qed.

Lemma replace_dot_git_at_end_id s :
  (∀ r, s ≠ r +:+ ".git") → Js.replace_dot_git_at_end s = s.
Proof.
  induction s as [|c s IH]; intros Hs; [done|].
  change (Js.replace_dot_git_at_end (String c s))
    with (if String.eqb (String c s) ".git" then ""
          else String c (Js.replace_dot_git_at_end s)).
  destruct (String.eqb_spec (String c s) ".git") as [Heq|_].
  - by destruct (Hs "").
  - rewrite IH; [done|]. intros r ->. by destruct (Hs (String c r)).
Qed.

Lemma replace_dot_git_at_end_slash a b :
  Js.replace_dot_git_at_end (a +:+ String "/" b)
  = a +:+ String "/" (Js.replace_dot_git_at_end b).
Proof.
  assert (Hne : ∀ s, s +:+ String "/" b ≠ ".git").
  { intros s Heq. apply (f_equal (lacks (Js.char "/"))) in Heq.
    rewrite lacks_app in Heq. simpl in Heq. by rewrite andb_false_r in Heq. }
  induction a as [|c a IH].
  - change (Js.replace_dot_git_at_end ("" +:+ String "/" b))
      with (if String.eqb (String "/" b) ".git" then ""
            else String "/" (Js.replace_dot_git_at_end b)).
    by destruct (String.eqb_spec (String "/" b) ".git").
  - change (Js.replace_dot_git_at_end (String c a +:+ String "/" b))
      with (if String.eqb (String c (a +:+ String "/" b)) ".git" then ""
            else String c (Js.replace_dot_git_at_end (a +:+ String "/" b))).
    rewrite IH.
    destruct (String.eqb_spec (String c (a +:+ String "/" b)) ".git") as [Heq|]; [|done].
    by destruct (Hne (String c a)).
Qed.

(** ** The parser of the tree reader on the output of [git ls-tree] *)

Lemma parseTreeObject_line m t s p :
  lacks Js.isWhiteSpace m = true → lacks Js.isWhiteSpace t = true →
  lacks Js.isWhiteSpace s = true → lacks (Js.char Js.TAB) p = true →
  parseTreeObject (m +:+ " " +:+ t +:+ " " +:+ s +:+ String Js.TAB p)
  = {| mode := Some m; type := Some t; sha := Some s; path := Some p |}.
Proof.
  intros Hm Ht Hs Hp. unfold parseTreeObject.
  assert (Htab : ∀ x, lacks Js.isWhiteSpace x = true → lacks (Js.char Js.TAB) x = true).
  { intros x. apply lacks_weaken. intros c Hc.
    apply Ascii.eqb_eq in Hc. by subst c. }
  assert (Hfields : Js.split Js.isWhiteSpace
                      (m +:+ " " +:+ t +:+ " " +:+ s +:+ String Js.TAB p)
                    = m :: t :: s :: Js.split Js.isWhiteSpace p).
  { napp. rewrite (split_app _ m " ") by done.
    rewrite (split_app _ t " ") by done.
    by rewrite (split_app _ s Js.TAB) by done. }
  assert (Hfile : Js.split (Js.char Js.TAB)
                    (m +:+ " " +:+ t +:+ " " +:+ s +:+ String Js.TAB p)
                  = [m +:+ " " +:+ t +:+ " " +:+ s; p]).
  { replace (m +:+ " " +:+ t +:+ " " +:+ s +:+ String Js.TAB p)
      with ((m +:+ " " +:+ t +:+ " " +:+ s) +:+ String Js.TAB p)
      by (by rewrite !append_assoc).
    rewrite (split_app (Js.char Js.TAB)); [|rewrite !lacks_app|done].
    - by rewrite split_lacks.
    - rewrite (Htab m Hm), (Htab t Ht), (Htab s Hs). reflexivity. }
  by rewrite Hfields, Hfile.
Qed.

Lemma line_rowLine r text :
  line (r_mode r) (r_type r) (r_sha r) (r_path r) +:+ text
  = rowLine r (r_path r) +:+ String Js.LF text.
Proof. unfold line, rowLine. rewrite !append_assoc. by napp. Qed.

Lemma rowLine_lacks_LF r p :
  wellFormedRow r = true → lacks (Js.char Js.LF) p = true →
  lacks (Js.char Js.LF) (rowLine r p) = true.
Proof.
  unfold wellFormedRow. rewrite !andb_true_iff. intros ((((Hm & Ht) & Hs) & _) & _) Hp.
  assert (Hlf : ∀ x, lacks Js.isWhiteSpace x = true → lacks (Js.char Js.LF) x = true).
  { intros x. apply lacks_weaken. intros c Hc.
    apply Ascii.eqb_eq in Hc. by subst c. }
  unfold rowLine. rewrite !lacks_app, (Hlf _ Hm), (Hlf _ Ht), (Hlf _ Hs).
  cbn [lacks]. rewrite Hp. reflexivity.
Qed.

Lemma trimEnd_lacks p s : lacks p s = true → lacks p (Js.trimEnd s) = true.
Proof.
  induction s as [|c s IH]; simpl; [done|].
  intros [Hc Hs]%andb_true_iff. specialize (IH Hs).
  destruct (Js.trimEnd s) eqn:Heq.
  - destruct (Js.isWhiteSpace c); simpl; [done|by rewrite Hc].
  - simpl in *. by rewrite Hc, IH.
Qed.

Lemma line_split m t s p text :
  line m t s p +:+ text
  = (m +:+ " " +:+ t +:+ " " +:+ s +:+ String Js.TAB "") +:+ (p +:+ String Js.LF text).
Proof. unfold line. rewrite !append_assoc. by napp. Qed.

Lemma rowLine_split r p :
  rowLine r p
  = (r_mode r +:+ " " +:+ r_type r +:+ " " +:+ r_sha r +:+ String Js.TAB "") +:+ p.
Proof. unfold rowLine. rewrite !append_assoc. by napp. Qed.

Lemma rowLine_not_nil r p : rowLine r p ≠ "".
Proof.
  unfold rowLine. intros Heq.
  apply append_eq_nil in Heq as [_ Heq]. napp.
  rewrite append_cons in Heq. done.
Qed.

Lemma trimEnd_lsTreeOutput rows last :
  Js.trimEnd (r_path last) ≠ "" →
  Js.trimEnd (lsTreeOutput (rows ++ [last]))
  = foldr (λ r text, rowLine r (r_path r) +:+ String Js.LF text)
      (rowLine last (Js.trimEnd (r_path last))) rows.
Proof.
  intros Hpath. induction rows as [|r rows IH]; cbn [app foldr lsTreeOutput].
  - rewrite line_split, rowLine_split.
    assert (Hb : Js.trimEnd (r_path last +:+ String Js.LF "")
                 = Js.trimEnd (r_path last))
      by (by apply trimEnd_app_whitespace).
    rewrite trimEnd_app by (by rewrite Hb). by rewrite Hb.
  - fold (lsTreeOutput (rows ++ [last])). rewrite line_rowLine.
    replace (rowLine r (r_path r) +:+ String Js.LF (lsTreeOutput (rows ++ [last])))
      with ((rowLine r (r_path r) +:+ String Js.LF "") +:+ lsTreeOutput (rows ++ [last]))
      by (by rewrite append_assoc).
    rewrite trimEnd_app.
    + rewrite IH. by rewrite append_assoc.
    + rewrite IH. destruct rows as [|r' rows]; cbn [foldr].
      * apply rowLine_not_nil.
      * intros Heq. apply append_eq_nil in Heq as [Heq _].
        by apply rowLine_not_nil in Heq.
Qed.

Lemma wellFormedRow_fields r :
  wellFormedRow r = true →
  lacks Js.isWhiteSpace (r_mode r) = true ∧ lacks Js.isWhiteSpace (r_type r) = true
  ∧ lacks Js.isWhiteSpace (r_sha r) = true
  ∧ lacks (Js.char Js.TAB) (r_path r) = true ∧ lacks (Js.char Js.LF) (r_path r) = true.
Proof. unfold wellFormedRow. rewrite !andb_true_iff. tauto. Qed.

(** The parse of the output of git for well-formed rows: every row
    but the last is returned as it is; the path of the last one loses its
    trailing whitespace. *)
Lemma parseTree_lsTreeOutput rows last :
  Forall (λ r, wellFormedRow r = true) rows →
  wellFormedRow last = true →
  Js.trimEnd (r_path last) ≠ "" →
  parseTree (lsTreeOutput (rows ++ [last]))
  = (entryOf <$> rows)
    ++ [{| mode := Some (r_mode last); type := Some (r_type last);
           sha := Some (r_sha last); path := Some (Js.trimEnd (r_path last)) |}].
Proof.
  intros Hrows Hlast Hpath. unfold parseTree.
  rewrite trimEnd_lsTreeOutput by done.
  destruct (wellFormedRow_fields _ Hlast) as (Hm & Ht & Hs & Htab & Hlf).
  induction Hrows as [|r rows Hr Hrows IH]; cbn [foldr].
  - rewrite split_lacks.
    + cbn [map fmap list_fmap app]. f_equal. unfold rowLine.
      apply parseTreeObject_line; try done. by apply trimEnd_lacks.
    + apply rowLine_lacks_LF; [done|]. by apply trimEnd_lacks.
  - destruct (wellFormedRow_fields _ Hr) as (Hm' & Ht' & Hs' & Htab' & Hlf').
    rewrite split_app; [|by apply rowLine_lacks_LF|done].
    cbn [map]. rewrite IH. rewrite fmap_cons. cbn [app]. f_equal.
    unfold rowLine, entryOf. by apply parseTreeObject_line.
Qed.

(** ** [getTree] on the output of [git ls-tree] *)

(** X1.  [getTree] reads back what git lists: for rows whose mode,
    type and sha hold no whitespace and whose paths hold no TAB and no line
    feed (spaces are allowed), the last path not ending in whitespace, the
    snapshot holds one entry per row, in order, with exactly the mode,
    the type, the sha and the path of the row. *)
Theorem getTree_reads_back_ls_tree env commitSha st rows last :
  outcome (git_raw env (lsTreeArgs commitSha))
  = Fulfilled (lsTreeOutput (rows ++ [last])) →
  Forall (λ r, wellFormedRow r = true) rows →
  wellFormedRow last = true →
  Js.trimEnd (r_path last) = r_path last →
  r_path last ≠ "" →
  ∃ p, (getTree env commitSha st).1 = Fulfilled p
       ∧ outcome p = Fulfilled (entryOf <$> rows ++ [last]).
Proof.
  intros Hlisting Hrows Hlast Htrim Hpath.
  unfold getTree, start. fold (lsTreeArgs commitSha). rewrite Hlisting.
  eexists. split; [reflexivity|]. cbn [outcome]. f_equal.
  rewrite parseTree_lsTreeOutput by (done || by rewrite Htrim).
  rewrite Htrim, fmap_app. done.
Qed.

Lemma getTree_reads_back_ls_tree_witness :
  outcome (git_raw (envOf spacedPaths) (lsTreeArgs (Some "c1")))
  = Fulfilled (lsTreeOutput ([row_x] ++ [row_spaced]))
  ∧ ∃ p, (getTree (envOf spacedPaths) (Some "c1") state0).1 = Fulfilled p
         ∧ outcome p = Fulfilled (entryOf <$> [row_x] ++ [row_spaced]).
Proof.
  split; [reflexivity|].
  apply getTree_reads_back_ls_tree; try reflexivity; try discriminate.
  by repeat constructor.
Defined.

(** X2.  The path of the last row loses its trailing whitespace:
    [getTree] trims the whole output of git before it cuts it into lines,
    so when the last path ends in whitespace the last entry of the
    snapshot has another path than the file. *)
Theorem getTree_trims_the_last_path env commitSha st rows last :
  outcome (git_raw env (lsTreeArgs commitSha))
  = Fulfilled (lsTreeOutput (rows ++ [last])) →
  Forall (λ r, wellFormedRow r = true) rows →
  wellFormedRow last = true →
  Js.trimEnd (r_path last) ≠ "" →
  Js.trimEnd (r_path last) ≠ r_path last →
  ∃ p tree,
    (getTree env commitSha st).1 = Fulfilled p
    ∧ outcome p = Fulfilled tree
    ∧ tree = (entryOf <$> rows)
             ++ [{| mode := Some (r_mode last); type := Some (r_type last);
                    sha := Some (r_sha last);
                    path := Some (Js.trimEnd (r_path last)) |}]
    ∧ tree ≠ entryOf <$> rows ++ [last].
Proof.
  intros Hlisting Hrows Hlast Hpath Htrim.
  unfold getTree, start. fold (lsTreeArgs commitSha). rewrite Hlisting.
  eexists _, _. split; [reflexivity|]. cbn [outcome].
  split; [reflexivity|]. rewrite parseTree_lsTreeOutput by done.
  split; [done|]. rewrite fmap_app. intros Heq.
  apply app_inv_head in Heq. cbn in Heq. injection Heq as Hp. by apply Htrim.
Qed.

Lemma getTree_trims_the_last_path_witness :
  outcome (git_raw (envOf trailingSpace) (lsTreeArgs (Some "c1")))
  = Fulfilled (lsTreeOutput ([row_x] ++ [row_trailing]))
  ∧ ∃ p tree,
      (getTree (envOf trailingSpace) (Some "c1") state0).1 = Fulfilled p
      ∧ outcome p = Fulfilled tree
      ∧ tree = (entryOf <$> [row_x])
               ++ [{| mode := Some (r_mode row_trailing);
                      type := Some (r_type row_trailing);
                      sha := Some (r_sha row_trailing);
                      path := Some (Js.trimEnd (r_path row_trailing)) |}]
      ∧ tree ≠ entryOf <$> [row_x] ++ [row_trailing].
Proof.
  split; [reflexivity|].
  apply getTree_trims_the_last_path; try reflexivity; try discriminate.
  by repeat constructor.
Defined.

(** ** [identifyRepository] on the URLs of a hosting service *)

Lemma split_cons_sep sep c b :
  sep c = true → Js.split sep (String c b) = "" :: Js.split sep b.
Proof. intros Hc. cbn [Js.split]. by rewrite Hc. Qed.

Lemma replace_dot_git_at_end_lacks p s :
  lacks p s = true → lacks p (Js.replace_dot_git_at_end s) = true.
Proof.
  induction s as [|c s IH]; [done|]. intros Hs.
  change (Js.replace_dot_git_at_end (String c s))
    with (if String.eqb (String c s) ".git" then ""
          else String c (Js.replace_dot_git_at_end s)).
  destruct (String.eqb (String c s) ".git"); [done|].
  cbn [lacks] in Hs |- *. apply andb_true_iff in Hs as [Hc Hs].
  by rewrite Hc, IH.
Qed.

(** X3.  For an origin URL of the form [scheme//host/owner/last],
    followed by whitespace, whose parts hold no slash, [identifyRepository]
    returns [owner] as the owner and [last] without a trailing [.git] as
    the repository, with the branch and the sha that git reports. *)
Theorem identifyRepository_reads_owner_and_repo
  env st scheme host owner last ws branch sha_ :
  git_revparse env ["--abbrev-ref"; "HEAD"] = Fulfilled branch →
  git_revparse env ["HEAD"] = Fulfilled sha_ →
  git_remote env ["get-url"; "origin"]
  = Fulfilled (originUrl scheme host owner last ws) →
  lacks (Js.char "/") scheme = true → lacks (Js.char "/") host = true →
  lacks (Js.char "/") owner = true → lacks (Js.char "/") last = true →
  allOf Js.isWhiteSpace ws = true →
  Js.trimEnd last = last → last ≠ "" →
  (identifyRepository env st).1
  = Fulfilled {| Repo.repo := Some (Js.replace_dot_git_at_end last);
                 Repo.owner := Some owner;
                 Repo.branch := branch; Repo.sha := sha_ |}
  ∧ (∀ r, last = r +:+ ".git" → Js.replace_dot_git_at_end last = r)
  ∧ ((∀ r, last ≠ r +:+ ".git") → Js.replace_dot_git_at_end last = last).
Proof.
  intros Hbranch Hsha Hurl Hscheme Hhost Howner Hlast Hws Htrim Hne.
  split; [|split].
  - unfold identifyRepository. unfold_monad. rewrite Hbranch, Hsha, Hurl.
    cbn [fst snd].
    assert (Hsegments :
              Js.split (Js.char "/")
                (Js.replace_dot_git_at_end
                   (Js.trimEnd (originUrl scheme host owner last ws)))
              = [scheme; ""; host; owner; Js.replace_dot_git_at_end last]).
    { unfold originUrl.
      replace (scheme +:+ "//" +:+ host +:+ "/" +:+ owner +:+ "/" +:+ last +:+ ws)
        with ((scheme +:+ "//" +:+ host +:+ "/" +:+ owner +:+ "/") +:+ (last +:+ ws))
        by (rewrite !append_assoc; by napp).
      rewrite trimEnd_app by (by rewrite trimEnd_app_whitespace, Htrim).
      rewrite trimEnd_app_whitespace, Htrim by done.
      replace ((scheme +:+ "//" +:+ host +:+ "/" +:+ owner +:+ "/") +:+ last)
        with ((scheme +:+ "//" +:+ host +:+ "/" +:+ owner) +:+ String "/" last)
        by (rewrite !append_assoc; by napp).
      rewrite replace_dot_git_at_end_slash.
      rewrite !append_assoc. napp.
      rewrite (split_app _ scheme "/") by done.
      rewrite (split_cons_sep (Js.char "/") "/") by done.
      rewrite (split_app _ host "/") by done.
      rewrite (split_app _ owner "/") by done.
      rewrite split_lacks by (by apply replace_dot_git_at_end_lacks). done. }
    rewrite Hsegments. reflexivity.
  - intros r ->. apply replace_dot_git_at_end_app.
  - apply replace_dot_git_at_end_id.
Qed.

Lemma identifyRepository_reads_owner_and_repo_witness :
  git_remote (envOf scenario) ["get-url"; "origin"]
  = Fulfilled (originUrl "https:" "github.com" "alvarezfr"
                 "action-verified-commit.git" (String Js.LF ""))
  ∧ (identifyRepository (envOf scenario) state0).1
    = Fulfilled {| Repo.repo := Some "action-verified-commit";
                   Repo.owner := Some "alvarezfr";
                   Repo.branch := "main"; Repo.sha := "l0" |}.
Proof.
  split; [reflexivity|].
  assert (Hne : "action-verified-commit.git" ≠ "") by discriminate.
  destruct (identifyRepository_reads_owner_and_repo (envOf scenario) state0
              "https:" "github.com" "alvarezfr" "action-verified-commit.git"
              (String Js.LF "") "main" "l0" eq_refl eq_refl eq_refl eq_refl
              eq_refl eq_refl eq_refl eq_refl eq_refl Hne)
    as (Hrun & Hgit & _).
  rewrite Hrun. by rewrite (Hgit "action-verified-commit").
Defined.

(** ** The blob differ, further *)

(** X4.  The upload tasks depend on the parent snapshot only through
    the set of its shas: reordering the parent, or renaming or moving its
    files, changes nothing. *)
Theorem uploadTasks_parent_shas (P P' T : list treeEntry) :
  (∀ x, x ∈ sha <$> P ↔ x ∈ sha <$> P') →
  uploadTasks P T = uploadTasks P' T.
Proof.
  intros Hsame. induction T as [|e T IH]; [done|]. cbn [uploadTasks].
  rewrite IH.
  destruct (inPreviousTree P e) eqn:HP, (inPreviousTree P' e) eqn:HP'; try done.
  - apply inPreviousTree_true, Hsame, inPreviousTree_true in HP. congruence.
  - apply inPreviousTree_true, Hsame, inPreviousTree_true in HP'. congruence.
Qed.

Lemma uploadTasks_parent_shas_witness :
  (∀ x, x ∈ sha <$> [entry_x; entry_y] ↔ x ∈ sha <$> [entry_y; entry_x])
  ∧ uploadTasks [entry_x; entry_y] [entry_x; entry_z]
    = uploadTasks [entry_y; entry_x] [entry_x; entry_z].
Proof.
  assert (Hsame : ∀ x, x ∈ sha <$> [entry_x; entry_y] ↔ x ∈ sha <$> [entry_y; entry_x]).
  { intros x. cbn. rewrite !elem_of_cons. tauto. }
  split; [exact Hsame|]. exact (uploadTasks_parent_shas _ _ _ Hsame).
Defined.

(** ** The loop of [createGithubBlobs], further *)

Lemma uploadTasks_nil (P T : list treeEntry) :
  uploadTasks P T = [] ↔ ∀ e, e ∈ T → sha e ∈ sha <$> P.
Proof.
  induction T as [|e T IH]; cbn [uploadTasks].
  - split; [intros _ e He; inversion He|done].
  - destruct (inPreviousTree P e) eqn:Hin.
    + rewrite IH. apply inPreviousTree_true in Hin. split.
      * intros Hall e' [->|He']%elem_of_cons; [done|by apply Hall].
      * intros Hall e' He'. apply Hall. by right.
    + split; [done|]. intros Hall.
      assert (inPreviousTree P e = true) as Htrue
        by (apply inPreviousTree_true, Hall; by left).
      congruence.
Qed.

(** X5.  The loop of [createGithubBlobs] is idle exactly when nothing
    is new: it completes without a call, leaving the promises and the state
    as they were, in every environment, if and only if every sha of the
    target snapshot occurs in the parent snapshot.  So it is for a target
    that equals its parent. *)
Theorem loop_is_idle_iff_nothing_is_new env (P T : list treeEntry) ps0 st :
  (createGithubBlobs_loop env P T ps0 st = (Fulfilled ps0, st)
   ↔ ∀ e, e ∈ T → sha e ∈ sha <$> P)
  ∧ createGithubBlobs_loop env T T ps0 st = (Fulfilled ps0, st).
Proof.
  assert (Hidle : ∀ P0 T0, (∀ e, e ∈ T0 → sha e ∈ sha <$> P0) →
            createGithubBlobs_loop env P0 T0 ps0 st = (Fulfilled ps0, st)).
  { intros P0 T0. induction T0 as [|e T0 IH]; intros Hall; [done|].
    cbn [createGithubBlobs_loop].
    assert (inPreviousTree P0 e = true) as ->
      by (apply inPreviousTree_true, Hall; by left).
    apply IH. intros e' He'. apply Hall. by right. }
  split; [split; [|apply Hidle]|].
  - intros Hrun. apply uploadTasks_nil.
    apply createGithubBlobs_loop_spec in Hrun as (evs & _ & Hl & _ & _ & _ & Hlen).
    assert (evs = []) as ->.
    { apply (app_inv_head (log st)). by rewrite app_nil_r. }
    by destruct (uploadTasks P T).
  - apply Hidle. intros e He. by apply list_elem_of_fmap_2.
Qed.

(** X6.  The loop of [createGithubBlobs] over a target made of two
    pieces is the loop over the first piece followed, when that one
    completes, by the loop over the second piece, which goes on with the
    promises and the state the first one left; a failure of the first
    ends it.  The entries are judged one by one, each against the parent
    alone: two entries of the target with the same new sha are both read
    and uploaded. *)
Theorem loop_over_two_pieces env (P T1 T2 : list treeEntry) ps0 st :
  createGithubBlobs_loop env P (T1 ++ T2) ps0 st
  = (let first := createGithubBlobs_loop env P T1 ps0 st in
     match first.1 with
     | Fulfilled ps => createGithubBlobs_loop env P T2 ps first.2
     | Rejected e => (Rejected e, first.2)
     end)
  ∧ (∀ e1 e2 ps st',
       sha e1 = sha e2 → sha e1 ∉ sha <$> P →
       createGithubBlobs_loop env P [e1; e2] ps0 st = (Fulfilled ps, st') →
       Some <$> filesRead (added st st')
       = [taskFile env (CONTEXT st) e1; taskFile env (CONTEXT st) e2]
       ∧ length (blobRequests (added st st')) = 2%nat).
Proof.
  split.
  - revert ps0 st. induction T1 as [|e T1 IH]; intros ps0 st.
    + cbn. by destruct (createGithubBlobs_loop env P T2 ps0 st).
    + cbn [app createGithubBlobs_loop].
      destruct (inPreviousTree P e); [apply IH|].
      unfold createBlob. unfold_monad. cbn.
      destruct (awaitBeside env ps0 (getBlobBase64Content env (path e)) st)
        as [[content|err] st1]; cbn; [|done].
      destruct (REPO (CONTEXT st1)) as [R|]; cbn; [|done].
      apply IH.
  - intros e1 e2 ps st' Hsame Hnew Hrun.
    apply createGithubBlobs_loop_spec in Hrun as (evs & _ & Hl & _ & _ & Hfiles & Hlen).
    unfold added. rewrite Hl, drop_app_length.
    assert (uploadTasks P [e1; e2] = [e1; e2]) as Htasks.
    { cbn [uploadTasks].
      assert (inPreviousTree P e1 = false) as ->.
      { apply not_true_is_false. by intros ?%inPreviousTree_true. }
      assert (inPreviousTree P e2 = false) as ->.
      { apply not_true_is_false. intros ?%inPreviousTree_true. congruence. }
      done. }
    rewrite Htasks in Hfiles, Hlen. by split.
Qed.

Lemma loop_over_two_pieces_witness :
  sha entry_y = sha entry_y
  ∧ (sha entry_y ∉ sha <$> [entry_x])
  ∧ filesRead
      (added (stateOf someRepo [])
         (createGithubBlobs_loop (envOf scenario) [entry_x] [entry_y; entry_y] []
            (stateOf someRepo [])).2)
    = ["/work/y.txt"; "/work/y.txt"]
  ∧ length
      (blobRequests
         (added (stateOf someRepo [])
            (createGithubBlobs_loop (envOf scenario) [entry_x] [entry_y; entry_y] []
               (stateOf someRepo [])).2)) = 2%nat.
Proof.
  assert (Hnew : sha entry_y ∉ sha <$> [entry_x]).
  { intros Hin. apply list_elem_of_In in Hin. cbn in Hin.
    destruct Hin as [Hin|[]]. discriminate. }
  split; [reflexivity|]. split; [exact Hnew|].
  destruct (loop_over_two_pieces (envOf scenario) [entry_x] [] [] []
              (stateOf someRepo [])) as [_ Htwice].
  destruct (Htwice entry_y entry_y _ _ eq_refl Hnew eq_refl) as [Hfiles Hlen].
  split; [|exact Hlen].
  apply (inj (fmap Some)). exact Hfiles.
Defined.

(** ** The loop of [createGithubBlobs], further *)

Lemma blobContents_app evs1 evs2 :
  blobContents (evs1 ++ evs2) = blobContents evs1 ++ blobContents evs2.
Proof.
  induction evs1 as [|ev evs1 IH]; [done|]. destruct ev; simpl; by rewrite ?IH.
Qed.

Lemma createGithubBlobs_loop_contents env P T : ∀ ps0 st r st',
  createGithubBlobs_loop env P T ps0 st = (r, st') →
  ∃ evs,
    log st' = log st ++ evs
    ∧ (isFulfilled r = true →
       Forall2 (λ f content,
                  ∃ bytes, fs_readFile env f = Fulfilled bytes
                           ∧ content = (toString_base64 env bytes, "base64"))
         (filesRead evs) (blobContents evs)).
Proof.
  induction T as [|e T IH]; intros ps0 st r st' Hrun; simpl in Hrun.
  - inversion Hrun; subst. exists []. rewrite app_nil_r. by split; [|constructor].
  - destruct (inPreviousTree P e) eqn:Hin; [by apply IH in Hrun|].
    unfold bind in Hrun at 1.
    destruct (getBlobBase64Content_spec env (path e) st) as (evs0 & Hst & Hread).
    destruct (awaitBeside_cases env ps0 (getBlobBase64Content env (path e)) st)
      as [Hsame|(err & Hend & _)].
    2: { rewrite Hend in Hrun. injection Hrun as <- <-. rewrite Hst.
         exists evs0. by split. }
    rewrite Hsame in Hrun.
    destruct (getBlobBase64Content env (path e) st) as [[content|err] st1] eqn:Hget;
      simpl in Hst, Hread.
    2: { injection Hrun as <- <-. subst st1. exists evs0. by split. }
    destruct Hread as (base & file & bytes & HP & Hf & Hbytes & -> & ->). subst st1.
    unfold createBlob in Hrun. unfold_monad. simpl in Hrun.
    destruct (REPO (CONTEXT st)) as [R|] eqn:HR; simpl in Hrun.
    2: { inversion Hrun; subst. by exists [EvReadFile (path_join env base file)]. }
    apply IH in Hrun as (evs & Hl & Hr). simpl in Hl.
    eexists (EvReadFile (path_join env base file) :: EvCreateBlob _ _ _ _ _ :: evs).
    rewrite Hl, <- !app_assoc. split; [done|].
    intros Hok. cbn [filesRead blobContents]. constructor; [|by apply Hr].
    by exists bytes.
Qed.

(** X7.  When the loop of [createGithubBlobs] completes, the blob
    requests it made are, in order, the base64 encodings of the bytes of
    the files it read, one request per file, each with the encoding
    [base64]. *)
Theorem blobs_are_the_files_read env P T ps0 st ps st' :
  createGithubBlobs_loop env P T ps0 st = (Fulfilled ps, st') →
  Forall2 (λ f content,
             ∃ bytes, fs_readFile env f = Fulfilled bytes
                      ∧ content = (toString_base64 env bytes, "base64"))
    (filesRead (added st st')) (blobContents (added st st')).
Proof.
  intros Hrun. apply createGithubBlobs_loop_contents in Hrun as (evs & Hl & Hr).
  unfold added. rewrite Hl, drop_app_length. by apply Hr.
Qed.

Lemma blobs_are_the_files_read_witness :
  createGithubBlobs_loop (envOf scenario) [entry_x] [entry_x; entry_y] []
    (stateOf someRepo [])
  = (Fulfilled [accepted "b64:bytes of /work/y.txt"],
     stateOf someRepo
       [EvReadFile "/work/y.txt";
        EvCreateBlob (Some "alvarezfr") (Some "action-verified-commit")
          "b64:bytes of /work/y.txt" "base64" (accepted "b64:bytes of /work/y.txt")])
  ∧ Forall2 (λ f content,
               ∃ bytes, fs_readFile (envOf scenario) f = Fulfilled bytes
                        ∧ content = (toString_base64 (envOf scenario) bytes, "base64"))
      ["/work/y.txt"] [("b64:bytes of /work/y.txt", "base64")].
Proof.
  split; [reflexivity|].
  exact (blobs_are_the_files_read (envOf scenario) [entry_x] [entry_x; entry_y]
           [] (stateOf someRepo []) _ _ eq_refl).
Defined.

(** X8.  An upload task that has no path makes the loop of
    [createGithubBlobs] throw: the loop never completes, whatever the
    environment. *)
Theorem loop_throws_on_a_task_without_path env P T ps0 st e :
  e ∈ uploadTasks P T → path e = None →
  isFulfilled (createGithubBlobs_loop env P T ps0 st).1 = false.
Proof.
  intros Hin Hpath. revert ps0 st.
  induction T as [|e' T IH]; intros ps0 st; [by inversion Hin|].
  cbn [uploadTasks createGithubBlobs_loop] in Hin |- *.
  destruct (inPreviousTree P e') eqn:Hprev; [by apply IH|].
  unfold bind at 1.
  destruct (awaitBeside_cases env ps0 (getBlobBase64Content env (path e')) st)
    as [->|(err & -> & _)]; [|done].
  apply elem_of_cons in Hin as [<-|Hin].
  - rewrite Hpath. unfold getBlobBase64Content. unfold_monad.
    by destruct (PATH (CONTEXT st)).
  - destruct (getBlobBase64Content env (path e') st) as [[content|err] st1];
      [|done].
    unfold createBlob. unfold_monad. cbn.
    destruct (REPO (CONTEXT st1)); [|done]. cbn. by apply IH.
Qed.

Lemma loop_throws_on_a_task_without_path_witness :
  entry_blank ∈ uploadTasks [entry_x] [entry_blank]
  ∧ path entry_blank = None
  ∧ isFulfilled (createGithubBlobs_loop (envOf allRemoved) [entry_x] [entry_blank] []
                   (stateOf someRepo [])).1 = false.
Proof.
  assert (Hin : entry_blank ∈ uploadTasks [entry_x] [entry_blank])
    by (apply list_elem_of_In; vm_compute; tauto).
  split; [exact Hin|]. split; [reflexivity|].
  exact (loop_throws_on_a_task_without_path _ _ _ _ _ _ Hin eq_refl).
Defined.

(** X9.  A commit whose tree is empty cannot be replicated when its
    parent has files: the listing of the commit is blank, its snapshot is
    the single entry without sha and path, no entry of the parent has that
    sha, and [createGithubBlobs] throws the [TypeError] that [path.join]
    throws on [undefined] right after the two listings, before any file is
    read and any blob created. *)
Theorem createGithubBlobs_throws_on_an_emptied_tree
  env commitSha st listing parentListing :
  outcome (git_raw env (lsTreeArgs commitSha)) = Fulfilled listing →
  Js.trimEnd listing = "" →
  outcome (git_raw env (lsTreeArgs (Some (Js.toString commitSha +:+ "~1"))))
  = Fulfilled parentListing →
  None ∉ sha <$> parseTree parentListing →
  createGithubBlobs env commitSha st
  = (Rejected TypeError_path,
     {| CONTEXT := CONTEXT st;
        log := log st ++ [EvRaw (lsTreeArgs (Some (Js.toString commitSha +:+ "~1")));
                          EvRaw (lsTreeArgs commitSha)] |}).
Proof.
  intros Hlisting Hblank Hparent Hshas.
  unfold createGithubBlobs, getTree. unfold_monad. cbn [fst snd log CONTEXT].
  fold (lsTreeArgs (Some (Js.toString commitSha +:+ "~1"))).
  fold (lsTreeArgs commitSha). rewrite Promise_all_two. cbn [outcome].
  rewrite Hparent, Hlisting. cbn.
  rewrite (parseTree_blank listing Hblank). cbn [createGithubBlobs_loop].
  assert (Hnew : inPreviousTree (parseTree parentListing)
                   {| mode := Some ""; type := None; sha := None; path := None |}
                 = false).
  { apply not_true_is_false. intros Hin. by apply inPreviousTree_true in Hin. }
  rewrite Hnew. unfold awaitBeside, getBlobBase64Content. unfold_monad. cbn.
  rewrite <- app_assoc.
  by destruct (PATH (CONTEXT st)), (unhandledRejections env).
Qed.

Lemma createGithubBlobs_throws_on_an_emptied_tree_witness :
  outcome (git_raw (envOf allRemoved) (lsTreeArgs (Some "c1"))) = Fulfilled ""
  ∧ createGithubBlobs (envOf allRemoved) (Some "c1") state0
    = (Rejected TypeError_path,
       {| CONTEXT := CONTEXT0;
          log := [] ++ [EvRaw (lsTreeArgs (Some "c1~1"));
                        EvRaw (lsTreeArgs (Some "c1"))] |}).
Proof.
  split; [reflexivity|].
  apply (createGithubBlobs_throws_on_an_emptied_tree (envOf allRemoved) (Some "c1")
           state0 "" (line "100644" "blob" "a1" "x.txt")); try reflexivity.
  vm_compute. intros Hin. apply list_elem_of_In in Hin. cbn in Hin.
  destruct Hin as [Hin|[]]. discriminate.
Defined.

(** ** The runs of the action, further *)

Ltac conclude_from_replies :=
  repeat match goal with H : _ = Fulfilled _ |- _ => rewrite H end;
  repeat match goal with H : _ = Rejected _ |- _ => rewrite H end.

Ltac last_of_log := rewrite ?app_comm_cons; apply last_snoc.

Lemma upload_events_assignments c evs :
  Forall (isUploadEvent c) evs → assignments evs = [].
Proof.
  induction 1 as [|ev evs Hev _ IH]; [done|].
  destruct (upload_event_cases _ _ Hev) as [(f & ->)|(R & ? & ? & ? & _ & ->)];
    by cbn [assignments].
Qed.

Ltac project_all :=
  simpl;
  rewrite ?List.filter_app, ?blobRequests_app, ?assignments_app, ?blobContents_app;
  repeat match goal with
    | Hall : Forall (isUploadEvent _) ?evs |- context [List.filter ?q ?evs] =>
        rewrite (upload_events_filter _ q evs Hall) by done
    | Hall : Forall (isUploadEvent _) ?evs |- context [assignments ?evs] =>
        rewrite (upload_events_assignments _ evs Hall)
    end;
  simpl.

(** X10.  When the tree-creation call is rejected, the run ends there
    with that failure, its message prefixed with [Cannot create a new GitHub
    Tree: ]: no commit is created, no reference is updated, and
    [CONTEXT.TASK.lastCommitSha] keeps its seed. *)
Theorem tree_creation_failure_ends_the_run env o r tree e :
  EvCreateTree o r tree (Rejected e) ∈ (action env).2 →
  (action env).1 = Rejected (treeFailure e)
  ∧ last (action env).2 = Some (EvCreateTree o r tree (Rejected e))
  ∧ List.filter isCreateCommit (action env).2 = []
  ∧ List.filter isUpdateRef (action env).2 = []
  ∧ length (assignments (action env).2) = 1%nat.
Proof.
  intros Hin. apply (elem_of_filter_bool isCreateTree) in Hin; [|done].
  revert Hin. unfold treeFailure. exec_action env; eqb_refl_cases.
  all: intros Hin; project_log_in Hin.
  all: try (by apply elem_of_nil in Hin).
  all: apply list_elem_of_singleton in Hin; simplify_eq.
  all: split; [reflexivity|].
  all: split; [last_of_log|].
  all: by project_all.
Qed.

Lemma tree_creation_failure_ends_the_run_witness :
  EvCreateTree (Some "alvarezfr") (Some "action-verified-commit")
    [entry_x; entry_y] (Rejected ValidationFailed)
  ∈ (action (withReplies (envOf scenario) (Rejected ValidationFailed)
               (Fulfilled "commit1") (Fulfilled tt))).2
  ∧ (action (withReplies (envOf scenario) (Rejected ValidationFailed)
               (Fulfilled "commit1") (Fulfilled tt))).1
    = Rejected (Error_ "Cannot create a new GitHub Tree: Validation Failed").
Proof.
  assert (Hin : EvCreateTree (Some "alvarezfr") (Some "action-verified-commit")
                  [entry_x; entry_y] (Rejected ValidationFailed)
                ∈ (action (withReplies (envOf scenario) (Rejected ValidationFailed)
                             (Fulfilled "commit1") (Fulfilled tt))).2)
    by (apply list_elem_of_In; vm_compute; tauto).
  split; [exact Hin|].
  exact (proj1 (tree_creation_failure_ends_the_run _ _ _ _ _ Hin)).
Defined.

(** X11.  When the commit-creation call is rejected, the run ends
    there with that failure, unchanged: no reference is updated, and
    [CONTEXT.TASK.lastCommitSha] keeps its seed. *)
Theorem commit_creation_failure_ends_the_run env o r message_ parents tree e :
  EvCreateCommit o r message_ parents tree (Rejected e) ∈ (action env).2 →
  (action env).1 = Rejected e
  ∧ last (action env).2 = Some (EvCreateCommit o r message_ parents tree (Rejected e))
  ∧ List.filter isUpdateRef (action env).2 = []
  ∧ length (assignments (action env).2) = 1%nat.
Proof.
  intros Hin. apply (elem_of_filter_bool isCreateCommit) in Hin; [|done].
  revert Hin. exec_action env; eqb_refl_cases.
  all: intros Hin; project_log_in Hin.
  all: try (by apply elem_of_nil in Hin).
  all: apply list_elem_of_singleton in Hin; simplify_eq.
  all: split; [reflexivity|].
  all: split; [last_of_log|].
  all: by project_all.
Qed.

Lemma commit_creation_failure_ends_the_run_witness :
  EvCreateCommit (Some "alvarezfr") (Some "action-verified-commit")
    "Automated commit" [Some "l0"] "tree1" (Rejected ValidationFailed)
  ∈ (action (withReplies (envOf scenario) (Fulfilled "tree1")
               (Rejected ValidationFailed) (Fulfilled tt))).2
  ∧ (action (withReplies (envOf scenario) (Fulfilled "tree1")
               (Rejected ValidationFailed) (Fulfilled tt))).1
    = Rejected ValidationFailed.
Proof.
  assert (Hin : EvCreateCommit (Some "alvarezfr") (Some "action-verified-commit")
                  "Automated commit" [Some "l0"] "tree1" (Rejected ValidationFailed)
                ∈ (action (withReplies (envOf scenario) (Fulfilled "tree1")
                             (Rejected ValidationFailed) (Fulfilled tt))).2)
    by (apply list_elem_of_In; vm_compute; tauto).
  split; [exact Hin|].
  exact (proj1 (commit_creation_failure_ends_the_run _ _ _ _ _ _ _ Hin)).
Defined.

(** X12.  The commit-creation call is made with the commit message of
    the inputs and with the sha that the tree-creation call of the run
    replied. *)
Theorem commit_is_made_of_the_new_tree env o r message_ parents tree reply :
  EvCreateCommit o r message_ parents tree reply ∈ (action env).2 →
  core_getInput env "commit-message" true = Fulfilled message_
  ∧ ∃ entries,
      List.filter isCreateTree (action env).2
      = [EvCreateTree o r entries (Fulfilled tree)].
Proof.
  intros Hin. apply (elem_of_filter_bool isCreateCommit) in Hin; [|done].
  revert Hin. exec_action env; eqb_refl_cases.
  all: intros Hin; project_log_in Hin.
  all: try (by apply elem_of_nil in Hin).
  all: apply list_elem_of_singleton in Hin; simplify_eq.
  all: split; [reflexivity|].
  all: eexists; by project_all.
Qed.

Lemma commit_is_made_of_the_new_tree_witness :
  EvCreateCommit (Some "alvarezfr") (Some "action-verified-commit")
    "Automated commit" [Some "l0"] "tree1" (Fulfilled "commit1")
  ∈ (action (envOf scenario)).2
  ∧ core_getInput (envOf scenario) "commit-message" true = Fulfilled "Automated commit"
  ∧ ∃ entries,
      List.filter isCreateTree (action (envOf scenario)).2
      = [EvCreateTree (Some "alvarezfr") (Some "action-verified-commit") entries
           (Fulfilled "tree1")].
Proof.
  assert (Hin : EvCreateCommit (Some "alvarezfr") (Some "action-verified-commit")
                  "Automated commit" [Some "l0"] "tree1" (Fulfilled "commit1")
                ∈ (action (envOf scenario)).2)
    by (apply list_elem_of_In; vm_compute; tauto).
  split; [exact Hin|].
  exact (commit_is_made_of_the_new_tree _ _ _ _ _ _ _ Hin).
Defined.

(** X13.  The reference update is the last call of a run and decides
    its outcome: the run succeeds when the update succeeds and fails with
    the failure of the update otherwise.  It is forced, and it updates the
    reference [heads/] followed by the target branch: the branch input, or
    the checked-out branch when the input is empty. *)
Theorem ref_update_decides_the_run env o r ref sha_ force reply :
  EvUpdateRef o r ref sha_ force reply ∈ (action env).2 →
  (action env).1 = reply
  ∧ last (action env).2 = Some (EvUpdateRef o r ref sha_ force reply)
  ∧ force = true
  ∧ ∃ input checkedOut,
      core_getInput env "branch" false = Fulfilled input
      ∧ git_revparse env ["--abbrev-ref"; "HEAD"] = Fulfilled checkedOut
      ∧ ref = "heads/" +:+ targetBranch input checkedOut.
Proof.
  intros Hin. apply (elem_of_filter_bool isUpdateRef) in Hin; [|done].
  revert Hin. unfold targetBranch. exec_action env; eqb_refl_cases.
  all: intros Hin; project_log_in Hin.
  all: try (by apply elem_of_nil in Hin).
  all: apply list_elem_of_singleton in Hin; simplify_eq.
  all: split; [reflexivity|].
  all: split; [last_of_log|].
  all: split; [reflexivity|].
  all: eexists _, _; split; [reflexivity|]; split; [reflexivity|].
  all: by repeat match goal with H : negb _ = _ |- _ => rewrite H end.
Qed.

Lemma ref_update_decides_the_run_witness :
  EvUpdateRef (Some "alvarezfr") (Some "action-verified-commit") "heads/main"
    (Some "commit1") true (Rejected ValidationFailed)
  ∈ (action (withReplies (envOf scenario) (Fulfilled "tree1")
               (Fulfilled "commit1") (Rejected ValidationFailed))).2
  ∧ (action (withReplies (envOf scenario) (Fulfilled "tree1")
               (Fulfilled "commit1") (Rejected ValidationFailed))).1
    = Rejected ValidationFailed.
Proof.
  assert (Hin : EvUpdateRef (Some "alvarezfr") (Some "action-verified-commit")
                  "heads/main" (Some "commit1") true (Rejected ValidationFailed)
                ∈ (action (withReplies (envOf scenario) (Fulfilled "tree1")
                             (Fulfilled "commit1") (Rejected ValidationFailed))).2)
    by (apply list_elem_of_In; vm_compute; tauto).
  split; [exact Hin|].
  exact (proj1 (ref_update_decides_the_run _ _ _ _ _ _ _ Hin)).
Defined.

(** X14.  A run that succeeds either found a clean tree and made no
    call on the hosting API, or went through the whole replication: every
    upload was fulfilled, one tree and one commit were created, the commit
    on the seed, and the reference was updated to the new commit. *)
Theorem success_means_replicated env :
  (action env).1 = Fulfilled tt →
  (∃ status, git_status env = Fulfilled status ∧ isClean status = true
             ∧ List.filter isRemoteCall (action env).2 = [])
  ∨ (∃ o r entries tree message_ seed new ref,
       Forall (λ p, isRejected p = false) (blobRequests (action env).2)
       ∧ List.filter isCreateTree (action env).2
         = [EvCreateTree o r entries (Fulfilled tree)]
       ∧ List.filter isLinkageEvent (action env).2
         = [EvAssignLastCommitSha seed;
            EvCreateCommit o r message_ [Some seed] tree (Fulfilled new);
            EvAssignLastCommitSha new;
            EvUpdateRef o r ref (Some new) true (Fulfilled tt)]).
Proof.
  exec_action env; eqb_refl_cases.
  all: intros Hok; simplify_eq.
  all: try (left; eexists; split; [reflexivity|]; split; [done|]; by project_all).
  all: right.
  all: repeat match goal with H : _ ∧ _ |- _ => destruct H end; subst; join_uploads.
  all: eexists _, _, _, _, _, _, _, _.
  all: project_all; rewrite ?app_nil_r.
  all: split; [apply Forall_forall; by apply earliestRejection_None|].
  all: rewrite Hok.
  all: split; reflexivity.
Qed.

Lemma success_means_replicated_witness :
  (action (envOf scenario)).1 = Fulfilled tt
  ∧ ((∃ status, git_status (envOf scenario) = Fulfilled status
                ∧ isClean status = true
                ∧ List.filter isRemoteCall (action (envOf scenario)).2 = [])
     ∨ (∃ o r entries tree message_ seed new ref,
          Forall (λ p, isRejected p = false) (blobRequests (action (envOf scenario)).2)
          ∧ List.filter isCreateTree (action (envOf scenario)).2
            = [EvCreateTree o r entries (Fulfilled tree)]
          ∧ List.filter isLinkageEvent (action (envOf scenario)).2
            = [EvAssignLastCommitSha seed;
               EvCreateCommit o r message_ [Some seed] tree (Fulfilled new);
               EvAssignLastCommitSha new;
               EvUpdateRef o r ref (Some new) true (Fulfilled tt)])).
Proof.
  split; [reflexivity|]. exact (success_means_replicated (envOf scenario) eq_refl).
Defined.

(** X15.  The first commit of a repository cannot be replicated: when
    the parent of the helper commit does not resolve, the run creates no
    blob, no tree and no commit and updates no reference, and a run on a
    tree with changes does not succeed. *)
Theorem first_commit_is_not_replicated env c e :
  localCommitOf env = Some c →
  outcome (git_raw env (lsTreeArgs (Some (c +:+ "~1")))) = Rejected e →
  List.filter isObjectCall (action env).2 = []
  ∧ (∀ status, git_status env = Fulfilled status → isClean status = false →
               isFulfilled (action env).1 = false).
Proof.
  unfold localCommitOf, lsTreeArgs. exec_action env; eqb_refl_cases.
  all: intros Hcommit Hparent.
  all: repeat match goal with
         | H : git_add_commit _ _ _ = _ |- _ => rewrite H in Hcommit
         end; simplify_eq.
  all: try match goal with
         | H : outcome (git_raw _ ?a) = Fulfilled _ |- _ =>
             rewrite H in Hparent; discriminate
         end.
  all: split; [by project_all|].
  all: intros status Hstatus Hclean; simplify_eq; try done; congruence.
Qed.

Lemma first_commit_is_not_replicated_witness :
  localCommitOf (envOf firstCommit) = Some "c1"
  ∧ outcome (git_raw (envOf firstCommit) (lsTreeArgs (Some ("c1" +:+ "~1"))))
    = Rejected NotAValidObjectName
  ∧ List.filter isObjectCall (action (envOf firstCommit)).2 = []
  ∧ isFulfilled (action (envOf firstCommit)).1 = false.
Proof.
  split; [reflexivity|]. split; [reflexivity|].
  destruct (first_commit_is_not_replicated (envOf firstCommit) "c1"
              NotAValidObjectName eq_refl eq_refl) as [Hnone Hfail].
  split; [exact Hnone|]. exact (Hfail {| isClean := false |} eq_refl eq_refl).
Defined.

(** X16.  The branch is created at the commit that [HEAD] resolves to
    in the local repository.  When its creation fails with an [Error] that
    is not about an existing reference, the run ends with that failure
    before the helper commit is made and before any object is created. *)
Theorem branch_is_created_at_head env o r sha_ ref reply :
  EvCreateRef o r sha_ ref reply ∈ (action env).2 →
  git_revparse env ["HEAD"] = Fulfilled sha_
  ∧ (∀ e, reply = Rejected e → instanceofError e = true →
          message e ≠ Some "Reference already exists" →
          (action env).1 = Rejected e
          ∧ last (action env).2 = Some (EvCreateRef o r sha_ ref reply)
          ∧ List.filter isAddCommit (action env).2 = []
          ∧ List.filter isObjectCall (action env).2 = []).
Proof.
  intros Hin. apply (elem_of_filter_bool isCreateRef) in Hin; [|done].
  revert Hin. exec_action env; eqb_refl_cases.
  all: intros Hin; project_log_in Hin.
  all: try (by apply elem_of_nil in Hin).
  all: apply list_elem_of_singleton in Hin; simplify_eq.
  all: split; [reflexivity|].
  all: intros e He Herr Hmsg; simplify_eq.
  all: try match goal with
         | H : instanceofError ?e && negb (Js.strictEq (message ?e) _) = false |- _ =>
             rewrite Herr in H; cbn in H;
             apply negb_false_iff, strictEq_true in H; done
         end.
  all: split; [reflexivity|].
  all: split; [first [reflexivity | last_of_log]|].
  all: by project_all.
Qed.

Lemma branch_is_created_at_head_witness :
  EvCreateRef (Some "alvarezfr") (Some "action-verified-commit") "l0"
    "refs/heads/feature" (Rejected NotFound)
  ∈ (action (envOf toFeature_notFound)).2
  ∧ git_revparse (envOf toFeature_notFound) ["HEAD"] = Fulfilled "l0"
  ∧ (action (envOf toFeature_notFound)).1 = Rejected NotFound
  ∧ List.filter isAddCommit (action (envOf toFeature_notFound)).2 = [].
Proof.
  assert (Hin : EvCreateRef (Some "alvarezfr") (Some "action-verified-commit") "l0"
                  "refs/heads/feature" (Rejected NotFound)
                ∈ (action (envOf toFeature_notFound)).2)
    by (apply list_elem_of_In; vm_compute; tauto).
  split; [exact Hin|].
  destruct (branch_is_created_at_head _ _ _ _ _ _ Hin) as [Hhead Hfail].
  split; [exact Hhead|].
  assert (Hmsg : message NotFound ≠ Some "Reference already exists") by discriminate.
  destruct (Hfail NotFound eq_refl eq_refl Hmsg) as (Hrun & _ & Hnone & _).
  by split.
Defined.

(** X17.  The helper commit is made at most once in a run, with
    [git add './*'] and the message [local commit], and never on a clean
    tree. *)
Theorem helper_commit_needs_changes env :
  List.filter isAddCommit (action env).2 = []
  ∨ (List.filter isAddCommit (action env).2 = [EvAddCommit "./*" "local commit"]
     ∧ ∃ status, git_status env = Fulfilled status ∧ isClean status = false).
Proof.
  exec_action env; eqb_refl_cases.
  all: project_all.
  all: try (by left).
  all: right; split; [reflexivity|]; by eexists.
Qed.

Lemma substring_all s : String.substring 0 (String.length s) s = s.
Proof. induction s as [|c s IH]; cbn; [done|by rewrite IH]. Qed.

Lemma prefix_app p s : String.prefix p s = true → ∃ r, s = p +:+ r.
Proof.
  revert s. induction p as [|a p IH]; intros s Hp; [by exists s|].
  destruct s as [|b s]; [done|]. cbn in Hp.
  destruct (ascii_dec a b) as [->|]; [|done].
  destruct (IH s Hp) as [r ->]. exists r. by rewrite append_cons.
Qed.

Lemma replace_HEAD_prefix id : Js.replace "HEAD " "" ("HEAD " +:+ id) = id.
Proof.
  destruct id as [|c id]; [reflexivity|].
  change ("HEAD " +:+ String c id)
    with (String "H" (String "E" (String "A" (String "D" (String " " (String c id)))))).
  cbn [Js.replace String.prefix]. cbn.
  replace (String.length id - 0)%nat with (String.length id) by lia.
  rewrite append_nil_l, substring_all. reflexivity.
Qed.

Lemma replace_HEAD_absent s :
  lacks (Js.char " ") s = true → Js.replace "HEAD " "" s = s.
Proof.
  induction s as [|c s IH]; [reflexivity|]. intros Hs.
  assert (Hprefix : String.prefix "HEAD " (String c s) = false).
  { destruct (String.prefix "HEAD " (String c s)) eqn:Hp; [|done].
    apply prefix_app in Hp as [r Hr]. rewrite Hr, lacks_app in Hs. done. }
  cbn [Js.replace]. rewrite Hprefix.
  cbn [lacks] in Hs. apply andb_true_iff in Hs as [_ Hs]. by rewrite IH.
Qed.

(** X18.  The trees that a run lists are those of the helper commit
    and of its first parent, where the helper commit is named by what
    simple-git reports with the first [HEAD ] removed: the text that
    follows a leading [HEAD ], and the report itself when it holds no
    space. *)
Theorem listings_are_of_the_helper_commit env ev :
  ev ∈ (action env).2 → isRaw ev = true →
  ∃ report,
    git_add_commit env "./*" "local commit" = Fulfilled report
    ∧ (ev = EvRaw (lsTreeArgs (Some (Js.replace "HEAD " "" (commit report))))
       ∨ ev = EvRaw (lsTreeArgs (Some (Js.replace "HEAD " "" (commit report)
                                       +:+ "~1"))))
    ∧ (∀ id, commit report = "HEAD " +:+ id →
             Js.replace "HEAD " "" (commit report) = id)
    ∧ (lacks (Js.char " ") (commit report) = true →
       Js.replace "HEAD " "" (commit report) = commit report).
Proof.
  intros Hin Hraw.
  cut (∃ report,
         git_add_commit env "./*" "local commit" = Fulfilled report
         ∧ (ev = EvRaw (lsTreeArgs (Some (Js.replace "HEAD " "" (commit report))))
            ∨ ev = EvRaw (lsTreeArgs (Some (Js.replace "HEAD " "" (commit report)
                                            +:+ "~1"))))).
  { intros (report & Hreport & Hev). exists report.
    split; [done|]. split; [done|]. split.
    - intros id ->. apply replace_HEAD_prefix.
    - apply replace_HEAD_absent. }
  apply (elem_of_filter_bool isRaw) in Hin; [|done]. clear Hraw.
  revert Hin. unfold lsTreeArgs. exec_action env; eqb_refl_cases.
  all: intros Hin; project_log_in Hin.
  all: try (by apply elem_of_nil in Hin).
  all: eexists; split; [reflexivity|].
  all: repeat (rewrite ?elem_of_cons, ?elem_of_nil in Hin).
  all: repeat match goal with H : _ ∨ _ |- _ => destruct H as [H|H] end.
  all: try done; subst ev; tauto.
Qed.

Lemma listings_are_of_the_helper_commit_witness :
  EvRaw (lsTreeArgs (Some "c1~1")) ∈ (action (envOf scenario)).2
  ∧ ∃ report,
      git_add_commit (envOf scenario) "./*" "local commit" = Fulfilled report
      ∧ commit report = "HEAD " +:+ "c1"
      ∧ Js.replace "HEAD " "" (commit report) = "c1".
Proof.
  assert (Hin : EvRaw (lsTreeArgs (Some "c1~1")) ∈ (action (envOf scenario)).2)
    by (apply list_elem_of_In; vm_compute; tauto).
  split; [exact Hin|].
  destruct (listings_are_of_the_helper_commit _ _ Hin eq_refl)
    as (report & Hreport & _ & Hprefix & _).
  exists report. split; [exact Hreport|].
  assert (Hcommit : commit report = "HEAD " +:+ "c1").
  { cbn in Hreport. by injection Hreport as <-. }
  split; [exact Hcommit|]. exact (Hprefix "c1" Hcommit).
Defined.

(** ** [debugGitStatus] *)

(** X19.  [debugGitStatus] prints its header and then, in the order
    of the properties of the status, one line for each property that
    holds a non-empty array, but for the property [files], and no other
    line: a number, a string, a boolean, [null], a function and an empty
    array are never printed, and [null] is not read. *)
Theorem debugGitStatus_prints_in_order stringify gitStatus :
  debugGitStatus stringify gitStatus
  = "git status:"
    :: ((λ entry, "  " +:+ entry.1 +:+ ": " +:+ stringify entry.2)
          <$> List.filter isPrinted gitStatus)
  ∧ length (debugGitStatus stringify gitStatus)
    = S (length (List.filter isPrinted gitStatus)).
Proof.
  assert (Hlines : debugGitStatus stringify gitStatus
                   = "git status:"
                     :: ((λ entry, "  " +:+ entry.1 +:+ ": " +:+ stringify entry.2)
                           <$> List.filter isPrinted gitStatus)).
  { unfold debugGitStatus. f_equal.
    induction gitStatus as [|[key value] gitStatus IH]; [done|].
    cbn [flat_map List.filter fst snd]. rewrite IH. unfold isPrinted. cbn [fst snd].
    destruct (negb (key =? "files")%string); [|done].
    destruct value as [[|item items]| | | | |]; done. }
  split; [exact Hlines|]. rewrite Hlines. cbn [length]. by rewrite length_fmap.
Qed.
